(** * AI website designer: generation client and live preview

    A shallow embedding of [services/gemini.ts] (the generation client
    [bringToLife]) and of the [LivePreview] component (loading simulation,
    version selection, export helpers), with the properties of the
    specification stated and settled against it.

    JavaScript strings are sequences of UTF-16 code units; they are modelled
    as [list N].  React state is modelled by explicit state passing: one
    record for the component, one function per effect and per handler. *)

From Stdlib Require Import NArith ZArith Lia Bool String Ascii.
From stdpp Require Import base option list.

(* ===================================================================== *)
(** ** JavaScript strings *)
(* ===================================================================== *)

Module JS.

Definition jsstr := list N.

(** Source literals are UTF-8 in this file and UTF-16 in the program:
    [utf16_of_utf8] decodes one to the other (a code point above the
    basic plane becomes a surrogate pair). *)
Fixpoint utf16_of_utf8 (bs : list N) : jsstr :=
  match bs with
  | [] => []
  | b :: r =>
      if (b <? 128)%N then b :: utf16_of_utf8 r
      else if (b <? 224)%N then
        match r with
        | b1 :: r1 => ((b - 192) * 64 + (b1 - 128))%N :: utf16_of_utf8 r1
        | _ => [65533%N]
        end
      else if (b <? 240)%N then
        match r with
        | b1 :: b2 :: r2 =>
            ((b - 224) * 4096 + (b1 - 128) * 64 + (b2 - 128))%N
              :: utf16_of_utf8 r2
        | _ => [65533%N]
        end
      else
        match r with
        | b1 :: b2 :: b3 :: r3 =>
            let cp := ((b - 240) * 262144 + (b1 - 128) * 4096
                       + (b2 - 128) * 64 + (b3 - 128) - 65536)%N in
            (55296 + cp / 1024)%N :: (56320 + cp mod 1024)%N
              :: utf16_of_utf8 r3
        | _ => [65533%N]
        end
  end.

Definition str (s : string) : jsstr :=
  utf16_of_utf8 (map N_of_ascii (list_ascii_of_string s)).

(** The double quote, which the literals of this file cannot contain:
    [quoted] reads an apostrophe as a double quote. *)
Definition dquote : N := 34%N.

Definition quoted (s : string) : jsstr :=
  map (fun c => if (c =? 39)%N then dquote else c) (str s).

Definition between (lo hi c : N) : bool := ((lo <=? c) && (c <=? hi))%N.

(** The complement of the class [[^a-z0-9]] under the [i] flag: without
    the [u] flag no code unit from 128 on is canonicalised to an ASCII
    one, so exactly the ASCII letters and digits escape the class. *)
Definition isAsciiAlnum (c : N) : bool :=
  between 48 57 c || between 65 90 c || between 97 122 c.

(** [s.replace(/[^a-z0-9]/gi, '_')] *)
Definition replaceNonAlnum (s : jsstr) : jsstr :=
  map (fun c => if isAsciiAlnum c then c else 95%N) s.

(** [s.toLowerCase()] on the ASCII range.  The program applies it to the
    result of [replaceNonAlnum] only, which holds no other code unit
    (lemma [replaceNonAlnum_ascii] below); code units from 128 on are
    left as they are here. *)
Definition toLowerCase (s : jsstr) : jsstr :=
  map (fun c => if between 65 90 c then (c + 32)%N else c) s.

(** WhiteSpace and LineTerminator code units, the ones [trim] strips. *)
Definition isWhiteSpace (c : N) : bool :=
  between 9 13 c || (c =? 32)%N || (c =? 160)%N || (c =? 5760)%N
  || between 8192 8202 c || (c =? 8232)%N || (c =? 8233)%N
  || (c =? 8239)%N || (c =? 8287)%N || (c =? 12288)%N || (c =? 65279)%N.

Fixpoint trimStart (s : jsstr) : jsstr :=
  match s with
  | c :: r => if isWhiteSpace c then trimStart r else s
  | [] => []
  end.

Definition trimEnd (s : jsstr) : jsstr := rev (trimStart (rev s)).

(** [s.trim()] *)
Definition trim (s : jsstr) : jsstr := trimEnd (trimStart s).

(** [s.startsWith(p)], returning what follows [p]. *)
Fixpoint stripPrefix (p s : jsstr) : option jsstr :=
  match p, s with
  | [], _ => Some s
  | a :: p', b :: s' => if (a =? b)%N then stripPrefix p' s' else None
  | _ :: _, [] => None
  end.

(** [s.includes(p)] *)
Fixpoint includes (p s : jsstr) : bool :=
  match stripPrefix p s with
  | Some _ => true
  | None => match s with [] => false | _ :: s' => includes p s' end
  end.

(** Truthiness of a string: the empty string is falsy. *)
Definition truthyStr (s : jsstr) : bool :=
  match s with [] => false | _ => true end.

End JS.

(* ===================================================================== *)
(** ** Results and exceptions *)
(* ===================================================================== *)

Module Completion.
Import JS.

(** What a [throw] carries: the two built-in errors the client can meet,
    [new Error(message)], and whatever the external call rejects with. *)
Inductive Exn :=
| SyntaxError
| TypeError
| Error (message : jsstr)
| Rejected (reason : jsstr).

Inductive Outcome (A : Type) :=
| Returned (a : A)
| Thrown (e : Exn).
Arguments Returned {A} a.
Arguments Thrown {A} e.

#[global] Instance Outcome_ret : MRet Outcome := fun A a => Returned a.
#[global] Instance Outcome_bind : MBind Outcome := fun A B f m =>
  match m with
  | Returned a => f a
  | Thrown e => Thrown e
  end.

End Completion.

(* ===================================================================== *)
(** ** JSON values and JSON.parse *)
(* ===================================================================== *)

Module Json.
Import JS Completion.

(** The values [JSON.parse] builds, and [undefined], which a property
    read yields for a missing key.  A number keeps its lexeme.  An object
    keeps its members in source order; a repeated key is read at its last
    member. *)
#[warnings="-register-all"]
Inductive JSValue :=
| JUndefined
| JNull
| JBool (b : bool)
| JNumber (lexeme : jsstr)
| JString (s : jsstr)
| JArray (items : list JSValue)
| JObject (members : list (jsstr * JSValue)).

Inductive Token :=
| TLBrace | TRBrace | TLBracket | TRBracket | TColon | TComma
| TScalar (v : JSValue).

(** *** The lexer, one code unit at a time *)

Inductive NumPhase :=
| NMinus | NZero | NInt | NDot | NFrac | NExpMark | NExpSign | NExp.

Inductive Lex :=
| LIdle
| LString (acc : jsstr)
| LEscape (acc : jsstr)
| LUnicode (acc : jsstr) (todo : nat) (v : N)
| LNumber (ph : NumPhase) (acc : jsstr)
| LLiteral (rest : jsstr) (v : JSValue).

Definition isJsonSpace (c : N) : bool :=
  (c =? 32)%N || (c =? 9)%N || (c =? 10)%N || (c =? 13)%N.

Definition isDigit (c : N) : bool := between 48 57 c.

Definition hexValue (c : N) : option N :=
  if between 48 57 c then Some (c - 48)%N
  else if between 65 70 c then Some (c - 55)%N
  else if between 97 102 c then Some (c - 87)%N
  else None.

Definition isExpMark (c : N) : bool := (c =? 101)%N || (c =? 69)%N.

(** The phase a number moves to on one more code unit, if it can take it. *)
Definition numNext (ph : NumPhase) (c : N) : option NumPhase :=
  match ph with
  | NMinus => if (c =? 48)%N then Some NZero
              else if between 49 57 c then Some NInt else None
  | NZero => if (c =? 46)%N then Some NDot
             else if isExpMark c then Some NExpMark else None
  | NInt => if isDigit c then Some NInt
            else if (c =? 46)%N then Some NDot
            else if isExpMark c then Some NExpMark else None
  | NDot => if isDigit c then Some NFrac else None
  | NFrac => if isDigit c then Some NFrac
             else if isExpMark c then Some NExpMark else None
  | NExpMark => if (c =? 43)%N || (c =? 45)%N then Some NExpSign
                else if isDigit c then Some NExp else None
  | NExpSign => if isDigit c then Some NExp else None
  | NExp => if isDigit c then Some NExp else None
  end.

(** The phases in which the number read so far is complete. *)
Definition numComplete (ph : NumPhase) : bool :=
  match ph with
  | NZero | NInt | NFrac | NExp => true
  | _ => false
  end.

Definition lexIdle (c : N) : option (Lex * list Token) :=
  if isJsonSpace c then Some (LIdle, [])
  else if (c =? 123)%N then Some (LIdle, [TLBrace])
  else if (c =? 125)%N then Some (LIdle, [TRBrace])
  else if (c =? 91)%N then Some (LIdle, [TLBracket])
  else if (c =? 93)%N then Some (LIdle, [TRBracket])
  else if (c =? 58)%N then Some (LIdle, [TColon])
  else if (c =? 44)%N then Some (LIdle, [TComma])
  else if (c =? 34)%N then Some (LString [], [])
  else if (c =? 45)%N then Some (LNumber NMinus [c], [])
  else if (c =? 48)%N then Some (LNumber NZero [c], [])
  else if between 49 57 c then Some (LNumber NInt [c], [])
  else if (c =? 116)%N then Some (LLiteral (str "rue") (JBool true), [])
  else if (c =? 102)%N then Some (LLiteral (str "alse") (JBool false), [])
  else if (c =? 110)%N then Some (LLiteral (str "ull") JNull, [])
  else None.

Definition unescape (c : N) : option N :=
  if (c =? 34)%N || (c =? 92)%N || (c =? 47)%N then Some c
  else if (c =? 98)%N then Some 8%N
  else if (c =? 102)%N then Some 12%N
  else if (c =? 110)%N then Some 10%N
  else if (c =? 114)%N then Some 13%N
  else if (c =? 116)%N then Some 9%N
  else None.

(** The accumulators hold the code units read so far, last one first. *)
Definition lexStep (st : Lex) (c : N) : option (Lex * list Token) :=
  match st with
  | LIdle => lexIdle c
  | LString acc =>
      if (c =? 34)%N then Some (LIdle, [TScalar (JString (rev acc))])
      else if (c =? 92)%N then Some (LEscape acc, [])
      else if (c <? 32)%N then None
      else Some (LString (c :: acc), [])
  | LEscape acc =>
      if (c =? 117)%N then Some (LUnicode acc 4 0%N, [])
      else match unescape c with
           | Some u => Some (LString (u :: acc), [])
           | None => None
           end
  | LUnicode acc todo v =>
      match hexValue c, todo with
      | Some h, 1 => Some (LString ((v * 16 + h)%N :: acc), [])
      | Some h, S todo' => Some (LUnicode acc todo' (v * 16 + h)%N, [])
      | _, _ => None
      end
  | LNumber ph acc =>
      match numNext ph c with
      | Some ph' => Some (LNumber ph' (c :: acc), [])
      | None =>
          if numComplete ph then
            match lexIdle c with
            | Some (st', toks) =>
                Some (st', TScalar (JNumber (rev acc)) :: toks)
            | None => None
            end
          else None
      end
  | LLiteral rest v =>
      match rest with
      | [x] => if (c =? x)%N then Some (LIdle, [TScalar v]) else None
      | x :: rest' => if (c =? x)%N then Some (LLiteral rest' v, []) else None
      | [] => None
      end
  end.

Definition lexEnd (st : Lex) : option (list Token) :=
  match st with
  | LIdle => Some []
  | LNumber ph acc =>
      if numComplete ph then Some [TScalar (JNumber (rev acc))] else None
  | _ => None
  end.

Fixpoint lexAll (st : Lex) (s : jsstr) : option (list Token) :=
  match s with
  | [] => lexEnd st
  | c :: r =>
      match lexStep st c with
      | Some (st', toks) => option_map (app toks) (lexAll st' r)
      | None => None
      end
  end.

(** *** The parser, one token at a time, with the open containers on a
    stack *)

Inductive Frame :=
| FArray (done : list JSValue)
| FObject (done : list (jsstr * JSValue)) (key : jsstr).

Inductive Expect :=
| XValue
| XValueOrClose
| XKeyOrClose
| XKey (done : list (jsstr * JSValue))
| XColon (done : list (jsstr * JSValue)) (key : jsstr)
| XDone (v : JSValue).

Definition startValue (stack : list Frame) (t : Token)
  : option (list Frame * Expect) :=
  match t with
  | TScalar v => Some (stack, XDone v)
  | TLBracket => Some (FArray [] :: stack, XValueOrClose)
  | TLBrace => Some (stack, XKeyOrClose)
  | _ => None
  end.

Definition parseStep (stack : list Frame) (x : Expect) (t : Token)
  : option (list Frame * Expect) :=
  match x with
  | XValue => startValue stack t
  | XValueOrClose =>
      match t, stack with
      | TRBracket, FArray done :: stack' =>
          Some (stack', XDone (JArray (rev done)))
      | _, _ => startValue stack t
      end
  | XKeyOrClose =>
      match t with
      | TRBrace => Some (stack, XDone (JObject []))
      | TScalar (JString k) => Some (stack, XColon [] k)
      | _ => None
      end
  | XKey done =>
      match t with
      | TScalar (JString k) => Some (stack, XColon done k)
      | _ => None
      end
  | XColon done k =>
      match t with
      | TColon => Some (FObject done k :: stack, XValue)
      | _ => None
      end
  | XDone v =>
      match t, stack with
      | TComma, FArray done :: stack' =>
          Some (FArray (v :: done) :: stack', XValue)
      | TComma, FObject done k :: stack' =>
          Some (stack', XKey (done ++ [(k, v)]))
      | TRBracket, FArray done :: stack' =>
          Some (stack', XDone (JArray (rev (v :: done))))
      | TRBrace, FObject done k :: stack' =>
          Some (stack', XDone (JObject (done ++ [(k, v)])))
      | _, _ => None
      end
  end.

Fixpoint parseAll (stack : list Frame) (x : Expect) (ts : list Token)
  : option JSValue :=
  match ts with
  | [] => match stack, x with [], XDone v => Some v | _, _ => None end
  | t :: ts' =>
      match parseStep stack x t with
      | Some (stack', x') => parseAll stack' x' ts'
      | None => None
      end
  end.

(** [JSON.parse(text)] *)
Definition JSON_parse (text : jsstr) : Outcome JSValue :=
  match lexAll LIdle text with
  | Some ts =>
      match parseAll [] XValue ts with
      | Some v => Returned v
      | None => Thrown SyntaxError
      end
  | None => Thrown SyntaxError
  end.

(** *** Reading the parsed value *)

Fixpoint lookupLast (k : jsstr) (ms : list (jsstr * JSValue))
  : option JSValue :=
  match ms with
  | [] => None
  | (k', v) :: ms' =>
      match lookupLast k ms' with
      | Some w => Some w
      | None => if bool_decide (k = k') then Some v else None
      end
  end.

(** [data[key]] for a key that no prototype defines: an object answers
    with its own member, [null] and [undefined] throw, every other value
    answers [undefined]. *)
Definition getProperty (data : JSValue) (key : jsstr) : Outcome JSValue :=
  match data with
  | JUndefined | JNull => Thrown TypeError
  | JObject ms => Returned (default JUndefined (lookupLast key ms))
  | _ => Returned JUndefined
  end.

(** The digits of a number before its exponent. *)
Fixpoint mantissa (lexeme : jsstr) : jsstr :=
  match lexeme with
  | [] => []
  | c :: r => if isExpMark c then [] else c :: mantissa r
  end.

(** A number is falsy when it is zero, that is when its mantissa has no
    digit from 1 to 9.  (A lexeme so small that it rounds to zero is not
    recognised; the guard of the client does not depend on it, see
    [guard_iff_array].) *)
Definition truthy (v : JSValue) : bool :=
  match v with
  | JUndefined | JNull => false
  | JBool b => b
  | JNumber lexeme => existsb (between 49 57) (mantissa lexeme)
  | JString s => truthyStr s
  | JArray _ | JObject _ => true
  end.

(** [Array.isArray(v)] *)
Definition isArray (v : JSValue) : bool :=
  match v with JArray _ => true | _ => false end.

End Json.

(* ===================================================================== *)
(** ** services/gemini.ts *)
(* ===================================================================== *)

Module Gemini.
Import JS Completion Json.

(** [interface DesignVersion] *)
Record DesignVersion := {
  themeName : jsstr;
  description : jsstr;
  html : jsstr
}.

(** One entry of [parts]. *)
Inductive Part :=
| TextPart (text : jsstr)
| InlineData (data mimeType : jsstr).

(** [GenerateContentResponse], of which the client reads [text] only. *)
Record GenerateContentResponse := { text : option jsstr }.

Definition finalPrompt (prompt : jsstr) : jsstr :=
  str "
  USER REQUEST: " ++ [dquote] ++ prompt ++ [dquote] ++ str "
  
  Generate 3 distinct, high-quality website design themes (HTML).
  Each HTML must be a multi-page SPA using hash routing (#page-home, #page-features, #page-contact).
  Return valid JSON.
  ".

(** [a || b] on an optional string. *)
Definition orElse (a : option jsstr) (b : jsstr) : jsstr :=
  match a with
  | Some s => if truthyStr s then s else b
  | None => b
  end.

Definition INVALID_STRUCTURE : jsstr := str "Invalid response structure".

Section client.
(** [ai.models.generateContent], called with the parts (model, system
    instruction and response schema are constants of the request). *)
Variable generateContent : list Part -> Outcome GenerateContentResponse.

Definition buildParts (prompt : jsstr) (fileBase64 mimeType : option jsstr)
  : list Part :=
  TextPart (finalPrompt prompt) ::
  match fileBase64, mimeType with
  | Some f, Some m =>
      if truthyStr f && truthyStr m then [InlineData f m] else []
  | _, _ => []
  end.

(** The [catch] block logs and rethrows, so an exception of any step
    is the exception of the call. *)
Definition bringToLife (prompt : jsstr) (fileBase64 mimeType : option jsstr)
  : Outcome JSValue :=
  response ← generateContent (buildParts prompt fileBase64 mimeType);
  let jsonText := orElse (text response) (str "{}") in
  data ← JSON_parse jsonText;
  designs ← getProperty data (str "designs");
  if negb (truthy designs) || negb (isArray designs)
  then Thrown (Error INVALID_STRUCTURE)
  else mret designs.
End client.

End Gemini.

(** [Creation], as [LivePreview] reads it: [name], and the two optional
    sources of designs, [versions] and the legacy [html]. *)
Module Creation.

Record Creation := {
  name : JS.jsstr;
  html : option JS.jsstr;
  versions : option (list Gemini.DesignVersion)
}.

End Creation.

(* ===================================================================== *)
(** ** LivePreview: export helpers *)
(* ===================================================================== *)

Module ExportHelpers.
Import JS.

(** What a handler hands to the browser: the blob and the [download]
    attribute of the anchor it clicks. *)
Record Download := {
  filename : jsstr;
  content : jsstr;
  mime : jsstr
}.

(** [<script id="design-prompt-data" type="text/plain">] *)
Definition PROMPT_OPEN : jsstr :=
  quoted "<script id='design-prompt-data' type='text/plain'>".

(** [</script>] *)
Definition PROMPT_CLOSE : jsstr := str "</script>".

(** [([\s\S]*?)close] at the start of [s]: the lazy star takes as few
    code units as it can, so the closing text is tried first and one more
    code unit is consumed only when that fails. *)
Fixpoint lazyUntil (close s : jsstr) : option jsstr :=
  match stripPrefix close s with
  | Some _ => Some []
  | None =>
      match s with
      | [] => None
      | c :: s' => option_map (cons c) (lazyUntil close s')
      end
  end.

(** The whole pattern at the start of [s]; the result is group 1. *)
Definition matchHere (s : jsstr) : option jsstr :=
  match stripPrefix PROMPT_OPEN s with
  | Some rest => lazyUntil PROMPT_CLOSE rest
  | None => None
  end.

(** [html.match(/<script ...>([\s\S]*?)<\/script>/)]: the pattern is
    tried at every index from the left; [Some cap] is [match[1]]. *)
Fixpoint matchPrompt (s : jsstr) : option jsstr :=
  match matchHere s with
  | Some cap => Some cap
  | None => match s with [] => None | _ :: s' => matchPrompt s' end
  end.

Definition PROMPT_NOT_FOUND : jsstr :=
  str "Design prompt not found in the generated file.".

(** The [promptText] of [handleDownloadPrompt]. *)
Definition promptText (html : jsstr) : jsstr :=
  match matchPrompt html with
  | Some cap => if truthyStr cap then trim cap else PROMPT_NOT_FOUND
  | None => PROMPT_NOT_FOUND
  end.

Definition handleDownloadPrompt (html themeName : jsstr) : Download :=
  {| filename := str "PROMPT_" ++ replaceNonAlnum themeName ++ str ".txt";
     content := promptText html;
     mime := str "text/plain" |}.

(** [handleDownloadHtml] returns at once when there is no creation. *)
Definition handleDownloadHtml (creation : option Creation.Creation)
    (html suffix : jsstr) : option Download :=
  match creation with
  | None => None
  | Some c =>
      Some {| filename := toLowerCase (replaceNonAlnum (Creation.name c))
                          ++ str "_" ++ suffix ++ str ".html";
              content := html;
              mime := str "text/html" |}
  end.

End ExportHelpers.


(* ===================================================================== *)
(** ** LivePreview: the component *)
(* ===================================================================== *)

Module LivePreview.
Import JS.

(** The [useState] cells.  [selectedVersionIndex = None] is [null], which
    means "Show All". *)
Record State := {
  loadingStep : Z;
  selectedVersionIndex : option nat;
  activeVersions : list Gemini.DesignVersion
}.

Definition setLoadingStep (f : Z -> Z) (st : State) : State :=
  {| loadingStep := f (loadingStep st);
     selectedVersionIndex := selectedVersionIndex st;
     activeVersions := activeVersions st |}.

Definition setSelectedVersionIndex (i : option nat) (st : State) : State :=
  {| loadingStep := loadingStep st;
     selectedVersionIndex := i;
     activeVersions := activeVersions st |}.

Definition setActiveVersions (vs : list Gemini.DesignVersion) (st : State)
  : State :=
  {| loadingStep := loadingStep st;
     selectedVersionIndex := selectedVersionIndex st;
     activeVersions := vs |}.

Definition initialState : State :=
  {| loadingStep := 0; selectedVersionIndex := None; activeVersions := [] |}.

(** *** Loading simulation *)

(** The body of the effect on [isLoading]: the new state, and whether an
    interval is left running. *)
Definition loadingEffect (isLoading : bool) (st : State) : State * bool :=
  if isLoading then (setLoadingStep (fun _ => 0%Z) st, true)
  else (setLoadingStep (fun _ => 0%Z) st, false).

(** The callback of the interval. *)
Definition tick (st : State) : State :=
  setLoadingStep (fun prev => if (prev <? 4)%Z then (prev + 1)%Z else prev) st.

(** The four [LoadingStep] rows, [i] from 0 to 3. *)
Definition stepActive (i : Z) (st : State) : bool := (loadingStep st =? i)%Z.
Definition stepCompleted (i : Z) (st : State) : bool := (loadingStep st >? i)%Z.

(** *** Parsing the versions of the creation *)

(** [creation.versions && creation.versions.length > 0] *)
Definition usableVersions (c : Creation.Creation)
  : option (list Gemini.DesignVersion) :=
  match Creation.versions c with
  | Some vs => if (0 <? length vs)%nat then Some vs else None
  | None => None
  end.

(** [creation.html], when truthy. *)
Definition usableHtml (c : Creation.Creation) : option jsstr :=
  match Creation.html c with
  | Some h => if truthyStr h then Some h else None
  | None => None
  end.

Definition legacyVersion (h : jsstr) : Gemini.DesignVersion :=
  {| Gemini.themeName := str "Standard Theme";
     Gemini.description := str "Original Design";
     Gemini.html := h |}.

(** The body of the effect on [creation]. *)
Definition creationEffect (creation : option Creation.Creation) (st : State)
  : State :=
  match creation with
  | Some c =>
      match usableVersions c with
      | Some vs => setSelectedVersionIndex None (setActiveVersions vs st)
      | None =>
          match usableHtml c with
          | Some h =>
              setSelectedVersionIndex (Some 0%nat)
                (setActiveVersions [legacyVersion h] st)
          | None => st
          end
      end
  | None => setActiveVersions [] st
  end.

(** *** The mounted component *)

Record Component := {
  creation : option Creation.Creation;
  isLoading : bool;
  state : State;
  interval : bool
}.

Inductive Event :=
| SetIsLoading (b : bool)
| SetCreation (c : option Creation.Creation)
| Reset
| Tick
| ClickCompare
| ClickTab (idx : nat)
| ClickPreview (idx : nat).

(** The first render runs both effects. *)
Definition mount (creation0 : option Creation.Creation) (isLoading0 : bool)
  : Component :=
  let '(st, iv) := loadingEffect isLoading0 initialState in
  {| creation := creation0; isLoading := isLoading0;
     state := creationEffect creation0 st; interval := iv |}.

(** The version tabs are rendered when
    [!isLoading && activeVersions.length > 1]. *)
Definition tabsShown (c : Component) : bool :=
  negb (isLoading c) && (1 <? length (activeVersions (state c)))%nat.

(** The gallery is rendered when
    [!isLoading && selectedVersionIndex === null]. *)
Definition galleryShown (c : Component) : bool :=
  negb (isLoading c)
  && match selectedVersionIndex (state c) with None => true | _ => false end.

(** [activeVersions[selectedVersionIndex]], the design of the focused
    view and of the download buttons of the header. *)
Definition focusedVersion (st : State) : option Gemini.DesignVersion :=
  match selectedVersionIndex st with
  | Some i => activeVersions st !! i
  | None => None
  end.

(** An event can happen when its source exists: a tick while the
    interval runs, a click on a button that is rendered. *)
Definition enabled (c : Component) (ev : Event) : bool :=
  match ev with
  | Tick => interval c
  | ClickCompare => tabsShown c
  | ClickTab idx =>
      tabsShown c && (idx <? length (activeVersions (state c)))%nat
  | ClickPreview idx =>
      galleryShown c && (idx <? length (activeVersions (state c)))%nat
  | _ => true
  end.

Definition withState (c : Component) (st : State) : Component :=
  {| creation := creation c; isLoading := isLoading c;
     state := st; interval := interval c |}.

Definition receiveCreation (c : Component)
    (creation' : option Creation.Creation) : Component :=
  {| creation := creation'; isLoading := isLoading c;
     state := creationEffect creation' (state c); interval := interval c |}.

(** Modelled from the spec: [onReset] is a callback of the parent, whose
    code is not part of the component; "reset() discards the current
    GenerationResult entirely", that is, the parent renders the preview
    again with [creation = null]. *)
Definition onReset (c : Component) : Component := receiveCreation c None.

Definition handle (c : Component) (ev : Event) : Component :=
  match ev with
  | SetIsLoading b =>
      if Bool.eqb b (isLoading c) then c
      else
        (* the cleanup clears the interval, then the effect runs again *)
        let '(st, iv) := loadingEffect b (state c) in
        {| creation := creation c; isLoading := b;
           state := st; interval := iv |}
  | SetCreation creation' => receiveCreation c creation'
  | Reset => onReset c
  | Tick => withState c (tick (state c))
  | ClickCompare => withState c (setSelectedVersionIndex None (state c))
  | ClickTab idx => withState c (setSelectedVersionIndex (Some idx) (state c))
  | ClickPreview idx =>
      withState c (setSelectedVersionIndex (Some idx) (state c))
  end.

Definition step (c : Component) (ev : Event) : Component :=
  if enabled c ev then handle c ev else c.

Definition run (c : Component) (evs : list Event) : Component :=
  foldl step c evs.

End LivePreview.

(* ===================================================================== *)
(** ** The words of the specification, and sample inputs *)
(* ===================================================================== *)

Module SpecWords.
Import JS Json LivePreview.

(** A theme variant of the specification: an object whose [themeName],
    [description] and [html] are strings. *)
Definition isStringField (ms : list (jsstr * JSValue)) (k : string) : bool :=
  match lookupLast (str k) ms with
  | Some (JString _) => true
  | _ => false
  end.

Definition isThemeVariant (v : JSValue) : bool :=
  match v with
  | JObject ms =>
      isStringField ms "themeName" && isStringField ms "description"
      && isStringField ms "html"
  | _ => false
  end.

(** "A sequence of exactly three theme variants". *)
Definition isGenerationResult (v : JSValue) : bool :=
  match v with
  | JArray ds => (length ds =? 3)%nat && forallb isThemeVariant ds
  | _ => false
  end.

(** The slug of the specification, in its words: "non-alphanumerics to
    underscore, lowercased". *)
Definition slugUnit (c : N) : N :=
  if between 65 90 c then (c + 32)%N
  else if between 97 122 c || between 48 57 c then c
  else 95%N.

Definition slug (s : jsstr) : jsstr := map slugUnit s.

(** "Trimmed", in words: [r] is [s] without a run of white space in front
    and one behind, and [r] neither starts nor ends with white space. *)
Definition trimmedOf (s r : jsstr) : Prop :=
  exists l t,
    s = l ++ r ++ t
    /\ Forall (fun c => isWhiteSpace c = true) l
    /\ Forall (fun c => isWhiteSpace c = true) t
    /\ (forall c, head r = Some c -> isWhiteSpace c = false)
    /\ (forall c, last r = Some c -> isWhiteSpace c = false).

(** The events that change the selection: the clicks on a tab and on a
    preview of the gallery. *)
Definition isSelection (ev : Event) : Prop :=
  match ev with
  | ClickCompare | ClickTab _ | ClickPreview _ => True
  | _ => False
  end.

(** The range in which the loading step stays. *)
Definition inRange (c : Component) : Prop :=
  (0 <= loadingStep (state c) <= 4)%Z.

End SpecWords.

Module Samples.
Import JS Completion Gemini.

Definition cafe : Creation.Creation :=
  {| Creation.name := str "My Café!";
     Creation.html := None;
     Creation.versions := None |}.

(** A stand-in for the external call that answers with a given body. *)
Definition answering (body : option jsstr)
  : list Part -> Outcome GenerateContentResponse :=
  fun _ => Returned {| text := body |}.

(** A body of the requested shape, with an escaped quote and an escaped
    line break in its markup. *)
Definition threeDesignsBody : jsstr :=
  quoted "{'designs': [
  {'themeName': 'Corporate Clean', 'description': 'Safe.',
   'html': '<!DOCTYPE html><html lang=\'en\'>\n</html>'},
  {'themeName': 'Bento Grid', 'description': 'Trendy.', 'html': '<html></html>'},
  {'themeName': 'Brutalist', 'description': 'Bold.', 'html': '<html></html>'}
]}".

Definition theme (n : string) : Gemini.DesignVersion :=
  {| Gemini.themeName := str n;
     Gemini.description := str "A theme";
     Gemini.html := str "<!DOCTYPE html><html></html>" |}.

Definition threeThemes : list Gemini.DesignVersion :=
  [theme "Corporate Clean"; theme "Bento Grid"; theme "Brutalist"].

Definition generated : Creation.Creation :=
  {| Creation.name := str "Shop";
     Creation.html := None;
     Creation.versions := Some threeThemes |}.

Definition emptyLegacy : Creation.Creation :=
  {| Creation.name := str "Old";
     Creation.html := Some [];
     Creation.versions := None |}.

Definition legacy : Creation.Creation :=
  {| Creation.name := str "Old";
     Creation.html := Some (str "<html></html>");
     Creation.versions := None |}.

End Samples.

(* ===================================================================== *)
(** ** LivePreview: what is rendered *)
(* ===================================================================== *)

Module LivePreviewView.
Import JS LivePreview.

(** *** The rows of the loading list *)

Inductive Look := Completed | Active | Pending.

(** The icon of [LoadingStep]: [completed ? ... : active ? ... : ...]. *)
Definition iconLook (active completed : bool) : Look :=
  if completed then Completed else if active then Active else Pending.

(** The label of [LoadingStep]: [active ? ... : completed ? ... : ...]. *)
Definition labelLook (active completed : bool) : Look :=
  if active then Active else if completed then Completed else Pending.

(** The row is at full opacity when [active || completed]. *)
Definition rowLit (active completed : bool) : bool := active || completed.

(** The four rows are rendered with the indices 0 to 3. *)
Definition ROWS : list Z := [0; 1; 2; 3]%Z.

(** *** The three regions of the main content *)

(** The loading overlay is rendered when [isLoading]. *)
Definition loadingShown (c : Component) : bool := isLoading c.

(** The focused view is rendered when
    [!isLoading && selectedVersionIndex !== null
     && activeVersions[selectedVersionIndex]]. *)
Definition focusedShown (c : Component) : bool :=
  negb (isLoading c)
  && match focusedVersion (state c) with Some _ => true | None => false end.

(** The two download buttons of the header are rendered when
    [selectedVersionIndex !== null && activeVersions[selectedVersionIndex]],
    whether loading or not. *)
Definition headerActionsShown (c : Component) : bool :=
  match focusedVersion (state c) with Some _ => true | None => false end.

(** *** The version tabs *)

(** The tabs in the order of the strip: the compare tab, then one tab for
    each active version. *)
Definition tabs (c : Component) : list (option nat) :=
  None :: (Some <$> seq 0 (length (activeVersions (state c)))).

(** A tab is highlighted when [selectedVersionIndex === null] for the
    compare tab, and when [selectedVersionIndex === idx] for the others. *)
Definition tabActive (c : Component) (tab : option nat) : bool :=
  bool_decide (selectedVersionIndex (state c) = tab).

(** *** The buttons that download *)

(** "Copy Prompt" of the header. *)
Definition clickCopyPrompt (c : Component) : option ExportHelpers.Download :=
  match focusedVersion (state c) with
  | Some v =>
      Some (ExportHelpers.handleDownloadPrompt (Gemini.html v)
              (Gemini.themeName v))
  | None => None
  end.

(** "Download HTML" of the header: [None] when the button is not
    rendered, [Some None] when the handler returns without a download. *)
Definition clickDownloadHtml (c : Component)
  : option (option ExportHelpers.Download) :=
  match focusedVersion (state c) with
  | Some v =>
      Some (ExportHelpers.handleDownloadHtml (creation c) (Gemini.html v)
              (Gemini.themeName v))
  | None => None
  end.

(** *** The gallery *)

(** [PREVIEW_PAGES]: the hash and the label of each page. *)
Definition PREVIEW_PAGES : list (jsstr * jsstr) :=
  [(str "#page-home", str "Home");
   (str "#page-features", str "Features");
   (str "#page-contact", str "Contact")].

(** One [iframe] of the gallery: its document, its title, and the hash
    that [onLoad] sets. *)
Record Thumbnail := {
  srcDoc : jsstr;
  title : jsstr;
  hash : jsstr;
  opens : nat
}.

(** [activeVersions.map((version, idx) => PREVIEW_PAGES.map(page => ...))],
    flattened in the order of the page; a click on a thumbnail selects
    [idx]. *)
Definition thumbnailsOf (idx : nat) (v : Gemini.DesignVersion)
  : list Thumbnail :=
  (fun page =>
     {| srcDoc := Gemini.html v;
        title := Gemini.themeName v ++ str " - " ++ snd page;
        hash := fst page;
        opens := idx |}) <$> PREVIEW_PAGES.

Definition thumbnails (st : State) : list Thumbnail :=
  mjoin (imap thumbnailsOf (activeVersions st)).

End LivePreviewView.

(* ===================================================================== *)
(** ** InputArea *)
(* ===================================================================== *)

Module InputArea.
Import JS.

(** [File], of which the component reads [name] and [type]. *)
Record File := { name : jsstr; type : jsstr }.

(** The [useState] cells. *)
Record State := {
  prompt : jsstr;
  attachedFile : option File;
  isDragging : bool
}.

Definition setPrompt (v : jsstr) (st : State) : State :=
  {| prompt := v; attachedFile := attachedFile st;
     isDragging := isDragging st |}.

Definition setAttachedFile (f : option File) (st : State) : State :=
  {| prompt := prompt st; attachedFile := f; isDragging := isDragging st |}.

Definition setIsDragging (b : bool) (st : State) : State :=
  {| prompt := prompt st; attachedFile := attachedFile st; isDragging := b |}.

Definition initialState : State :=
  {| prompt := []; attachedFile := None; isDragging := false |}.

(** [files && files[0]], for a [FileList] that may be [null]. *)
Definition firstFile (files : option (list File)) : option File :=
  match files with
  | Some (f :: _) => Some f
  | _ => None
  end.

Definition handleFileChange (files : option (list File)) (st : State)
  : State :=
  match firstFile files with
  | Some f => setAttachedFile (Some f) st
  | None => st
  end.

Definition handleDrop (disabled isGenerating : bool)
    (files : option (list File)) (st : State) : State :=
  let st' := setIsDragging false st in
  if disabled || isGenerating then st'
  else match firstFile files with
       | Some f => setAttachedFile (Some f) st'
       | None => st'
       end.

(** [!prompt.trim() && !attachedFile] *)
Definition nothingToSend (st : State) : bool :=
  negb (truthyStr (trim (prompt st)))
  && match attachedFile st with Some _ => false | None => true end.

(** One call of [onGenerate]: the prompt and [attachedFile || undefined]. *)
Definition Call : Type := jsstr * option File.

(** [handleSubmit]: the new state and the calls of [onGenerate] it made. *)
Definition handleSubmit (st : State) : State * list Call :=
  if nothingToSend st then (st, [])
  else (setAttachedFile None (setPrompt [] st),
        [(prompt st, attachedFile st)]).

Definition handleKeyDown (key : jsstr) (shiftKey : bool) (st : State)
  : State * list Call :=
  if bool_decide (key = str "Enter") && negb shiftKey then handleSubmit st
  else (st, []).

(** The prompts of the four suggestion chips. *)
Definition SUGGESTIONS : list jsstr :=
  [str "Professional SaaS dashboard with sidebar navigation, analytics charts, and data tables.";
   str "Modern fashion store with hero video, featured collections, and product grid.";
   str "Bold digital agency site with large typography, project case studies, and dark mode.";
   str "Clean real estate platform with property search map, listing cards, and agent profiles."].

(** *** The mounted component *)

Record Component := {
  isGenerating : bool;
  disabled : bool;
  state : State;
  calls : list Call
}.

Inductive Event :=
| SetProps (isGenerating' disabled' : bool)
| Change (value : jsstr)
| KeyDown (key : jsstr) (shiftKey : bool)
| ClickSubmit
| FileChange (files : option (list File))
| Drop (files : option (list File))
| DragOver
| DragLeave
| ClickRemoveFile
| ClickSuggestion (i : nat).

Definition mount (isGenerating0 disabled0 : bool) : Component :=
  {| isGenerating := isGenerating0; disabled := disabled0;
     state := initialState; calls := [] |}.

(** The submit button carries
    [disabled={(!prompt.trim() && !attachedFile) || isGenerating}]. *)
Definition submitDisabled (c : Component) : bool :=
  nothingToSend (state c) || isGenerating c.

(** The chips are rendered when
    [!isGenerating && !prompt && !attachedFile]. *)
Definition suggestionsShown (c : Component) : bool :=
  negb (isGenerating c) && negb (truthyStr (prompt (state c)))
  && match attachedFile (state c) with Some _ => false | None => true end.

(** An event can happen when its source can produce it: the textarea is
    [disabled] while generating, the submit button while there is nothing
    to send or while generating, and a button that is not rendered cannot
    be clicked. *)
Definition enabled (c : Component) (ev : Event) : bool :=
  match ev with
  | Change _ | KeyDown _ _ => negb (isGenerating c)
  | ClickSubmit => negb (submitDisabled c)
  | ClickRemoveFile =>
      match attachedFile (state c) with Some _ => true | None => false end
  | ClickSuggestion i =>
      suggestionsShown c && (i <? length SUGGESTIONS)%nat
  | _ => true
  end.

Definition withState (c : Component) (st : State) : Component :=
  {| isGenerating := isGenerating c; disabled := disabled c;
     state := st; calls := calls c |}.

Definition withSubmit (c : Component) (r : State * list Call) : Component :=
  {| isGenerating := isGenerating c; disabled := disabled c;
     state := fst r; calls := calls c ++ snd r |}.

Definition handle (c : Component) (ev : Event) : Component :=
  match ev with
  | SetProps g d =>
      {| isGenerating := g; disabled := d;
         state := state c; calls := calls c |}
  | Change v => withState c (setPrompt v (state c))
  | KeyDown key shiftKey => withSubmit c (handleKeyDown key shiftKey (state c))
  | ClickSubmit => withSubmit c (handleSubmit (state c))
  | FileChange files => withState c (handleFileChange files (state c))
  | Drop files =>
      withState c (handleDrop (disabled c) (isGenerating c) files (state c))
  | DragOver => withState c (setIsDragging true (state c))
  | DragLeave => withState c (setIsDragging false (state c))
  | ClickRemoveFile => withState c (setAttachedFile None (state c))
  | ClickSuggestion i =>
      match SUGGESTIONS !! i with
      | Some text => withState c (setPrompt text (state c))
      | None => c
      end
  end.

Definition step (c : Component) (ev : Event) : Component :=
  if enabled c ev then handle c ev else c.

Definition run (c : Component) (evs : list Event) : Component :=
  foldl step c evs.

End InputArea.

(* ===================================================================== *)
(** ** Hero: the timers of DrawingTransformation *)
(* ===================================================================== *)

Module DrawingTransformation.

(** The stage and the timers of one instance.  [startPending] is the
    timeout of the effect, [intervalRunning] the interval that its
    callback starts, [toDrawing] and [toAlive] count the timeouts of
    [cycle] that have not fired yet.  The delays are not modelled: a timer
    that is pending may fire at any time, which allows every order in
    which the clock can fire them. *)
Record State := {
  stage : Z;
  mounted : bool;
  startPending : bool;
  intervalRunning : bool;
  toDrawing : nat;
  toAlive : nat
}.

(** After the first render and its effect: stage 0, the start timeout
    pending. *)
Definition mount : State :=
  {| stage := 0; mounted := true; startPending := true;
     intervalRunning := false; toDrawing := 0; toAlive := 0 |}.

(** [setStage(v)]: the stage changes while the component is mounted; on
    an unmounted component the update is dropped. *)
Definition setStage (v : Z) (st : State) : Z :=
  if mounted st then v else stage st.

(** [cycle]: [setStage(0)] and the two timeouts. *)
Definition cycle (st : State) : State :=
  {| stage := setStage 0 st; mounted := mounted st;
     startPending := startPending st;
     intervalRunning := intervalRunning st;
     toDrawing := S (toDrawing st); toAlive := S (toAlive st) |}.

Inductive Event :=
| StartFires
| IntervalFires
| DrawingFires
| AliveFires
| Unmount.

Definition enabled (st : State) (ev : Event) : bool :=
  match ev with
  | StartFires => startPending st
  | IntervalFires => intervalRunning st
  | DrawingFires => (0 <? toDrawing st)%nat
  | AliveFires => (0 <? toAlive st)%nat
  | Unmount => mounted st
  end.

Definition handle (st : State) (ev : Event) : State :=
  match ev with
  | StartFires =>
      (* cycle(); setInterval(cycle, 9000); what the callback returns is
         dropped by the timer *)
      let st' := cycle st in
      {| stage := stage st'; mounted := mounted st'; startPending := false;
         intervalRunning := true;
         toDrawing := toDrawing st'; toAlive := toAlive st' |}
  | IntervalFires => cycle st
  | DrawingFires =>
      {| stage := setStage 1 st; mounted := mounted st;
         startPending := startPending st;
         intervalRunning := intervalRunning st;
         toDrawing := pred (toDrawing st); toAlive := toAlive st |}
  | AliveFires =>
      {| stage := setStage 2 st; mounted := mounted st;
         startPending := startPending st;
         intervalRunning := intervalRunning st;
         toDrawing := toDrawing st; toAlive := pred (toAlive st) |}
  | Unmount =>
      (* the cleanup of the effect: clearTimeout(startTimeout) *)
      {| stage := stage st; mounted := false; startPending := false;
         intervalRunning := intervalRunning st;
         toDrawing := toDrawing st; toAlive := toAlive st |}
  end.

Definition step (st : State) (ev : Event) : State :=
  if enabled st ev then handle st ev else st.

Definition run (st : State) (evs : list Event) : State := foldl step st evs.

End DrawingTransformation.

(* ===================================================================== *)
(** ** Words for the further properties *)
(* ===================================================================== *)

Module MoreWords.
Import JS.

(** A component of the preview that a sequence of events leads to. *)
Definition reachable (c : LivePreview.Component) : Prop :=
  exists creation0 isLoading0 evs,
    c = LivePreview.run (LivePreview.mount creation0 isLoading0) evs.

(** What every reachable component of the preview satisfies. *)
Definition settled (c : LivePreview.Component) : Prop :=
  LivePreview.interval c = LivePreview.isLoading c
  /\ (LivePreview.isLoading c = false ->
      LivePreview.loadingStep (LivePreview.state c) = 0%Z)
  /\ (forall k,
        LivePreview.selectedVersionIndex (LivePreview.state c) = Some k ->
        LivePreview.activeVersions (LivePreview.state c) <> [] ->
        (k < length (LivePreview.activeVersions (LivePreview.state c)))%nat)
  /\ (LivePreview.activeVersions (LivePreview.state c) <> [] ->
      LivePreview.creation c <> None).

(** The events that pass a creation to the preview. *)
Definition changesCreation (ev : LivePreview.Event) : Prop :=
  match ev with
  | LivePreview.SetCreation _ | LivePreview.Reset => True
  | _ => False
  end.


(** A code unit that may stand in a file name on every system: an ASCII
    letter or digit, the underscore or the dot. *)
Definition safeUnit (c : N) : bool :=
  isAsciiAlnum c || (c =? 95)%N || (c =? 46)%N.

(** Two names that differ only where both hold a code unit outside
    [A-Za-z0-9]. *)
Definition sameAlnum (s t : jsstr) : Prop :=
  Forall2 (fun a b => a = b \/ (isAsciiAlnum a = false /\ isAsciiAlnum b = false))
          s t.

(** A call of [onGenerate] that carries something: a prompt with a code
    unit that is not white space, or a file. *)
Definition carries (call : InputArea.Call) : Prop :=
  truthyStr (trim (fst call)) = true \/ snd call <> None.

(** The two constant pieces of [finalPrompt], around the quoted prompt. *)
Definition REQUEST_HEAD : jsstr := str "
  USER REQUEST: ".

Definition REQUEST_TAIL : jsstr := str "
  
  Generate 3 distinct, high-quality website design themes (HTML).
  Each HTML must be a multi-page SPA using hash routing (#page-home, #page-features, #page-contact).
  Return valid JSON.
  ".

(** The events of the input area that leave its props as they are. *)
Definition keepsProps (ev : InputArea.Event) : Prop :=
  match ev with
  | InputArea.SetProps _ _ => False
  | _ => True
  end.

(** A sketch to attach. *)
Definition sketch : InputArea.File :=
  {| InputArea.name := str "sketch.png"; InputArea.type := str "image/png" |}.

(** A creation with an empty [versions] array and an [html]. *)
Definition emptyVersions : Creation.Creation :=
  {| Creation.name := str "Both";
     Creation.html := Some (str "<p></p>");
     Creation.versions := Some [] |}.

End MoreWords.

(* ===================================================================== *)
(** ** Properties of the string operations *)
(* ===================================================================== *)

Module JSFacts.
Import JS.

Lemma stripPrefix_app (p s : jsstr) : stripPrefix p (p ++ s) = Some s.
Proof.
  induction p as [|a p IH]; simpl; [reflexivity|].
  rewrite N.eqb_refl. exact IH.
Qed.

Lemma stripPrefix_Some (p s r : jsstr) :
  stripPrefix p s = Some r -> s = p ++ r.
Proof.
  revert s. induction p as [|a p IH]; intros s H; simpl in *.
  - congruence.
  - destruct s as [|b s]; [discriminate|].
    destruct (N.eqb_spec a b) as [->|]; [|discriminate].
    f_equal. apply IH. exact H.
Qed.

Lemma stripPrefix_None (p s : jsstr) :
  stripPrefix p s = None -> forall r, s <> p ++ r.
Proof.
  intros H r ->. rewrite stripPrefix_app in H. discriminate.
Qed.

Lemma includes_here (p s r : jsstr) :
  stripPrefix p s = Some r -> includes p s = true.
Proof. intros H. destruct s; simpl in *; rewrite H; reflexivity. Qed.

(** [includes] is the occurrence of [p] somewhere in [s]. *)
Lemma includes_true (p s : jsstr) :
  includes p s = true <-> exists a b, s = a ++ p ++ b.
Proof.
  split.
  - induction s as [|c s IH]; simpl.
    + destruct (stripPrefix p []) as [r|] eqn:E; [|discriminate].
      intros _. exists [], r. apply stripPrefix_Some in E. exact E.
    + destruct (stripPrefix p (c :: s)) as [r|] eqn:E.
      * intros _. exists [], r. apply stripPrefix_Some in E. exact E.
      * intros H. destruct (IH H) as (a & b & ->). by exists (c :: a), b.
  - intros (a & b & ->). induction a as [|c a IH].
    + rewrite app_nil_l. apply (includes_here _ _ b), stripPrefix_app.
    + simpl. destruct (stripPrefix p (c :: a ++ p ++ b)); [reflexivity|exact IH].
Qed.

Lemma includes_false_tail (p : jsstr) (c : N) (s : jsstr) :
  includes p (c :: s) = false ->
  stripPrefix p (c :: s) = None /\ includes p s = false.
Proof.
  simpl. destruct (stripPrefix p (c :: s)); [discriminate|]. by split.
Qed.

(** A pattern whose first code unit does not occur in it again cannot
    overlap a later copy of itself: if it matches in front of
    [y ++ p ++ post] with [y] not empty, it matches inside [y]. *)
Lemma stripPrefix_no_overlap (c : N) (p' y post r : jsstr) :
  c ∉ p' ->
  y <> [] ->
  stripPrefix (c :: p') (y ++ (c :: p') ++ post) = Some r ->
  exists r', stripPrefix (c :: p') y = Some r'.
Proof.
  intros Hc Hy H. apply stripPrefix_Some in H.
  apply app_eq_inv in H.
  destruct H as [(k & Hk & Hr)|(k & Hk & Hr)].
  - exists k. rewrite Hk. apply stripPrefix_app.
  - destruct y as [|y0 y]; [done|].
    simpl in Hk. injection Hk as <- Hp'.
    destruct k as [|k0 k].
    + exists []. rewrite app_nil_r in Hp'. subst p'.
      rewrite <- (app_nil_r (c :: y)) at 2. apply stripPrefix_app.
    + exfalso. simpl in Hr. injection Hr as <- _.
      apply Hc. rewrite Hp'. apply elem_of_app. right. left.
Qed.

End JSFacts.

(* ===================================================================== *)
(** ** Properties of the export helpers *)
(* ===================================================================== *)

Module ExportFacts.
Import JS JSFacts ExportHelpers.

Lemma lazyUntil_eq (close s : jsstr) :
  lazyUntil close s =
  match stripPrefix close s with
  | Some _ => Some []
  | None =>
      match s with
      | [] => None
      | c :: s' => option_map (cons c) (lazyUntil close s')
      end
  end.
Proof. destruct s; reflexivity. Qed.

Lemma matchPrompt_eq (s : jsstr) :
  matchPrompt s =
  match matchHere s with
  | Some cap => Some cap
  | None => match s with [] => None | _ :: s' => matchPrompt s' end
  end.
Proof. destruct s; reflexivity. Qed.

(** The lazy group stops at the first closing text. *)
Lemma lazyUntil_found (c : N) (cl x post : jsstr) :
  c ∉ cl ->
  includes (c :: cl) x = false ->
  lazyUntil (c :: cl) (x ++ (c :: cl) ++ post) = Some x.
Proof.
  intros Hc. induction x as [|x0 x IH]; intros Hx.
  - rewrite app_nil_l, lazyUntil_eq, stripPrefix_app. reflexivity.
  - apply includes_false_tail in Hx as [Hhere Hx].
    rewrite lazyUntil_eq.
    destruct (stripPrefix (c :: cl) ((x0 :: x) ++ (c :: cl) ++ post))
      as [r|] eqn:E.
    + apply stripPrefix_no_overlap in E as [r' E]; [congruence|done|done].
    + specialize (IH Hx). simpl in IH |- *. rewrite IH. reflexivity.
Qed.

Lemma lazyUntil_sound (close s cap : jsstr) :
  lazyUntil close s = Some cap -> exists post, s = cap ++ close ++ post.
Proof.
  revert cap. induction s as [|c s IH]; intros cap; rewrite lazyUntil_eq.
  - destruct (stripPrefix close []) as [r|] eqn:E; [|discriminate].
    intros [= <-]. exists r. rewrite app_nil_l. by apply stripPrefix_Some.
  - destruct (stripPrefix close (c :: s)) as [r|] eqn:E.
    + intros [= <-]. exists r. rewrite app_nil_l. by apply stripPrefix_Some.
    + destruct (lazyUntil close s) as [cap'|]; [|discriminate].
      simpl. intros [= <-]. destruct (IH cap' eq_refl) as [post ->].
      by exists post.
Qed.

Lemma PROMPT_OPEN_head :
  exists tl, PROMPT_OPEN = 60%N :: tl /\ 60%N ∉ tl.
Proof.
  eexists. split; [vm_compute; reflexivity|].
  apply (bool_decide_unpack _). vm_compute. exact I.
Qed.

Lemma PROMPT_CLOSE_head :
  exists tl, PROMPT_CLOSE = 60%N :: tl /\ 60%N ∉ tl.
Proof.
  eexists. split; [vm_compute; reflexivity|].
  apply (bool_decide_unpack _). vm_compute. exact I.
Qed.

Lemma matchHere_found (x post : jsstr) :
  includes PROMPT_CLOSE x = false ->
  matchHere (PROMPT_OPEN ++ x ++ PROMPT_CLOSE ++ post) = Some x.
Proof.
  intros Hx. unfold matchHere. rewrite stripPrefix_app.
  destruct PROMPT_CLOSE_head as (tl & Hc & Htl). rewrite Hc in Hx |- *.
  by apply lazyUntil_found.
Qed.

(** The search takes the first opening text. *)
Lemma matchPrompt_first (pre rest : jsstr) (cap : jsstr) :
  includes PROMPT_OPEN pre = false ->
  matchHere (PROMPT_OPEN ++ rest) = Some cap ->
  matchPrompt (pre ++ PROMPT_OPEN ++ rest) = Some cap.
Proof.
  intros Hpre Hhere. induction pre as [|y pre IH].
  - rewrite app_nil_l, matchPrompt_eq, Hhere. reflexivity.
  - apply includes_false_tail in Hpre as [Hy Hpre].
    rewrite matchPrompt_eq.
    assert (matchHere ((y :: pre) ++ PROMPT_OPEN ++ rest) = None) as ->.
    { unfold matchHere.
      destruct (stripPrefix PROMPT_OPEN ((y :: pre) ++ PROMPT_OPEN ++ rest))
        as [r|] eqn:E; [|reflexivity].
      exfalso. destruct PROMPT_OPEN_head as (tl & Ho & Htl).
      rewrite Ho in E, Hy.
      apply stripPrefix_no_overlap in E as [r' E]; [congruence|done|done]. }
    simpl. exact (IH Hpre).
Qed.

(** A match is an occurrence of the marker around the captured text. *)
Lemma matchPrompt_sound (s cap : jsstr) :
  matchPrompt s = Some cap ->
  exists pre post, s = pre ++ PROMPT_OPEN ++ cap ++ PROMPT_CLOSE ++ post.
Proof.
  assert (forall s, matchHere s = Some cap ->
            exists post, s = PROMPT_OPEN ++ cap ++ PROMPT_CLOSE ++ post)
    as Hhere.
  { intros s0. unfold matchHere.
    destruct (stripPrefix PROMPT_OPEN s0) as [rest|] eqn:E; [|discriminate].
    intros H. apply stripPrefix_Some in E as ->.
    apply lazyUntil_sound in H as [post ->]. by exists post. }
  induction s as [|c s IH]; rewrite matchPrompt_eq.
  - destruct (matchHere []) as [cap'|] eqn:E; [|discriminate].
    intros [= ->]. destruct (Hhere _ E) as [post Hp].
    exists [], post. rewrite app_nil_l. exact Hp.
  - destruct (matchHere (c :: s)) as [cap'|] eqn:E.
    + intros [= ->]. destruct (Hhere _ E) as [post Hp].
      exists [], post. rewrite app_nil_l. exact Hp.
    + intros H. destruct (IH H) as (pre & post & ->).
      exists (c :: pre), post. reflexivity.
Qed.

Lemma matchPrompt_marker (pre x post : jsstr) :
  includes PROMPT_OPEN pre = false ->
  includes PROMPT_CLOSE x = false ->
  matchPrompt (pre ++ PROMPT_OPEN ++ x ++ PROMPT_CLOSE ++ post) = Some x.
Proof.
  intros Hpre Hx. apply matchPrompt_first; [done|]. by apply matchHere_found.
Qed.

Lemma matchPrompt_absent (s : jsstr) :
  (forall pre x post, s <> pre ++ PROMPT_OPEN ++ x ++ PROMPT_CLOSE ++ post) ->
  matchPrompt s = None.
Proof.
  intros H. destruct (matchPrompt s) as [cap|] eqn:E; [|reflexivity].
  apply matchPrompt_sound in E as (pre & post & E). by destruct (H pre cap post).
Qed.

End ExportFacts.

(* ===================================================================== *)
(** ** The export helpers against the specification *)
(* ===================================================================== *)

Module ExportSpec.
Import JS JSFacts ExportHelpers ExportFacts SpecWords Samples.

(** Case analysis on the range tests of a code unit [c], innermost
    comparisons first, then on what is left. *)
Ltac range_cases c :=
  unfold isAsciiAlnum, between;
  repeat match goal with
         | |- context [(?a <=? c)%N] => destruct (N.leb_spec a c); simpl
         | |- context [(c <=? ?b)%N] => destruct (N.leb_spec c b); simpl
         end;
  repeat match goal with
         | |- context [(?a <=? ?b)%N] => destruct (N.leb_spec a b); simpl
         | |- context [(?a =? ?b)%N] => destruct (N.eqb_spec a b); simpl
         end;
  try reflexivity; try lia.

Lemma lower_replace_unit (c : N) :
  (if between 65 90 (if isAsciiAlnum c then c else 95%N)
   then ((if isAsciiAlnum c then c else 95) + 32)%N
   else (if isAsciiAlnum c then c else 95%N)) = slugUnit c.
Proof.
  unfold slugUnit. range_cases c.
Qed.

Lemma toLowerCase_replaceNonAlnum (s : jsstr) :
  toLowerCase (replaceNonAlnum s) = slug s.
Proof.
  unfold toLowerCase, replaceNonAlnum, slug. rewrite map_map.
  apply map_ext. intros c. apply lower_replace_unit.
Qed.

(** What [replaceNonAlnum] leaves is ASCII: letters, digits, underscore. *)
Lemma replaceNonAlnum_ascii (s : jsstr) :
  Forall (fun c => isAsciiAlnum c = true \/ c = 95%N) (replaceNonAlnum s).
Proof.
  unfold replaceNonAlnum. induction s as [|c s IH]; simpl; constructor; auto.
  destruct (isAsciiAlnum c) eqn:E; auto.
Qed.

Lemma slug_units (s : jsstr) :
  Forall (fun c => between 97 122 c || between 48 57 c || (c =? 95)%N = true)
         (slug s).
Proof.
  unfold slug. induction s as [|c s IH]; simpl; constructor; auto.
  unfold slugUnit. range_cases c.
Qed.

Lemma trimStart_split (s : jsstr) :
  exists l, s = l ++ trimStart s
            /\ Forall (fun c => isWhiteSpace c = true) l
            /\ (forall c, head (trimStart s) = Some c -> isWhiteSpace c = false).
Proof.
  induction s as [|c s (l & Hs & Hl & Hh)]; simpl.
  - exists []. repeat split; [constructor|discriminate].
  - destruct (isWhiteSpace c) eqn:E.
    + exists (c :: l). simpl. rewrite <- Hs. repeat split; auto.
    + exists []. repeat split; [constructor|]. simpl. congruence.
Qed.

Lemma trimStart_snoc (s : jsstr) (c : N) :
  isWhiteSpace c = false -> trimStart (s ++ [c]) = trimStart s ++ [c].
Proof.
  intros Hc. induction s as [|d s IH]; simpl.
  - rewrite Hc. reflexivity.
  - destruct (isWhiteSpace d); [exact IH|reflexivity].
Qed.

Lemma trim_trimmedOf (s : jsstr) : trimmedOf s (trim s).
Proof.
  unfold trimmedOf, trim, trimEnd.
  destruct (trimStart_split s) as (l & Hs & Hl & Hh).
  destruct (trimStart_split (rev (trimStart s))) as (t & Ht & Hwt & Hth).
  set (u := trimStart s) in *. set (w := trimStart (rev u)) in *.
  assert (u = rev w ++ rev t) as Hu.
  { rewrite <- rev_app_distr, <- Ht, rev_involutive. reflexivity. }
  exists l, (rev t). repeat split.
  - rewrite <- Hu. exact Hs.
  - exact Hl.
  - apply Forall_forall. intros c Hc. rewrite Forall_forall in Hwt.
    apply Hwt. apply list_elem_of_In. apply list_elem_of_In in Hc.
    apply in_rev. exact Hc.
  - destruct u as [|c0 u'] eqn:Eu.
    + subst w. simpl. discriminate.
    + pose proof (Hh c0 eq_refl) as Hc0. subst w. simpl.
      rewrite (trimStart_snoc _ _ Hc0), rev_app_distr. simpl. congruence.
  - intros c Hc. apply Hth.
    destruct w as [|w0 ws]; [discriminate|].
    simpl in Hc |- *. rewrite last_app in Hc. simpl in Hc. exact Hc.
Qed.

Lemma content_prompt (html theme : jsstr) :
  content (handleDownloadPrompt html theme) = promptText html.
Proof. reflexivity. Qed.

Lemma promptText_marker (pre x post : jsstr) :
  includes PROMPT_OPEN pre = false ->
  includes PROMPT_CLOSE x = false ->
  promptText (pre ++ PROMPT_OPEN ++ x ++ PROMPT_CLOSE ++ post)
  = if truthyStr x then trim x else PROMPT_NOT_FOUND.
Proof.
  intros Hpre Hx. unfold promptText.
  rewrite (matchPrompt_marker pre x post Hpre Hx). reflexivity.
Qed.

Lemma absent_of_not_included (html : jsstr) :
  includes PROMPT_OPEN html = false ->
  forall pre x post, html <> pre ++ PROMPT_OPEN ++ x ++ PROMPT_CLOSE ++ post.
Proof.
  intros H pre x post E.
  assert (includes PROMPT_OPEN html = true) as Ht; [|congruence].
  apply includes_true. exists pre, (x ++ PROMPT_CLOSE ++ post). exact E.
Qed.

(** C3 (as stated) fails.  For the creation "My Café!" and the theme
    "Dark Mode" the HTML download is named [my_caf___Dark Mode.html]:
    the two code units outside [A-Za-z0-9] and the separator give three
    underscores, and the theme name is appended as it is.  The prompt
    download is named [PROMPT_Dark_Mode.txt]: it does not use the name
    of the creation and keeps the case.  Neither has the base name
    [my_caf__dark_mode]. *)
Lemma export_filenames_counterexample :
  filename <$> handleDownloadHtml (Some cafe) [] (str "Dark Mode")
    = Some (str "my_caf___Dark Mode.html")
  /\ filename <$> handleDownloadHtml (Some cafe) [] (str "Dark Mode")
     <> Some (str "my_caf__dark_mode" ++ str ".html")
  /\ filename (handleDownloadPrompt [] (str "Dark Mode"))
     = str "PROMPT_Dark_Mode.txt"
  /\ filename (handleDownloadPrompt [] (str "Dark Mode"))
     <> str "my_caf__dark_mode" ++ str ".txt".
Proof.
  repeat split; try (vm_compute; reflexivity); vm_compute; discriminate.
Qed.

(** C3 (amended).  The names of the two downloads are functions of the
    name of the creation and of the theme name alone.  The HTML download
    is named by the slug of the creation name (every code unit outside
    [A-Za-z0-9] replaced by an underscore, letters lowercased, so that
    only [a-z0-9_] is left), an underscore, a part that the theme name
    alone determines, and [.html].  The prompt download is named
    [PROMPT_], the theme name with every code unit outside [A-Za-z0-9]
    replaced by an underscore and the case kept, and [.txt]; it does not
    depend on the creation.  For "My Café!" the slug is [my_caf__], and
    for "Dark Mode" the prompt download is [PROMPT_Dark_Mode.txt]. *)
Theorem export_filenames (c c' : Creation.Creation)
    (html html' theme : jsstr) :
  (exists part,
      filename <$> handleDownloadHtml (Some c) html theme
        = Some (slug (Creation.name c) ++ str "_" ++ part ++ str ".html")
      /\ filename <$> handleDownloadHtml (Some c') html' theme
         = Some (slug (Creation.name c') ++ str "_" ++ part ++ str ".html"))
  /\ Forall (fun u => between 97 122 u || between 48 57 u || (u =? 95)%N = true)
            (slug (Creation.name c))
  /\ (exists part,
        filename (handleDownloadPrompt html theme)
          = str "PROMPT_" ++ part ++ str ".txt"
        /\ toLowerCase part = slug theme
        /\ Forall2 (fun t p => p = if isAsciiAlnum t then t else 95%N)
                   theme part)
  /\ filename (handleDownloadPrompt html' theme)
     = filename (handleDownloadPrompt html theme)
  /\ slug (str "My Café!") = str "my_caf__"
  /\ filename (handleDownloadPrompt html (str "Dark Mode"))
     = str "PROMPT_Dark_Mode.txt".
Proof.
  split; [|split; [|split; [|split; [|split]]]]; try reflexivity.
  - exists theme. simpl. rewrite !toLowerCase_replaceNonAlnum. by split.
  - apply slug_units.
  - exists (replaceNonAlnum theme). split; [reflexivity|]. split.
    + apply toLowerCase_replaceNonAlnum.
    + unfold replaceNonAlnum. induction theme; simpl; constructor; auto.
Qed.

(** C5 (as stated) fails.  The markup that is the marker with nothing
    between its tags contains the marker with [PROMPT_X] empty; the
    claim gives the empty text, the code gives the placeholder. *)
Lemma exportPrompt_marker_counterexample :
  let html := PROMPT_OPEN ++ [] ++ PROMPT_CLOSE in
  content (handleDownloadPrompt html (str "Dark Mode")) = PROMPT_NOT_FOUND
  /\ content (handleDownloadPrompt html (str "Dark Mode")) <> trim [].
Proof.
  split; [vm_compute; reflexivity|vm_compute; discriminate].
Qed.

(** C5 (amended).  [handleDownloadPrompt] answers for every markup.  When
    the markup holds the marker, that is the first opening tag
    [<script id="design-prompt-data" type="text/plain">], a text
    [PROMPT_X] that is not empty and does not hold [</script>], and
    [</script>], the text of the download is [PROMPT_X] trimmed.  When the
    markup holds no opening tag followed by a closing one, it is the
    placeholder. *)
Theorem exportPrompt_marker (html theme : jsstr) :
  (forall pre x post,
      html = pre ++ PROMPT_OPEN ++ x ++ PROMPT_CLOSE ++ post ->
      includes PROMPT_OPEN pre = false ->
      includes PROMPT_CLOSE x = false ->
      x <> [] ->
      content (handleDownloadPrompt html theme) = trim x
      /\ trimmedOf x (trim x))
  /\ ((forall pre x post,
          html <> pre ++ PROMPT_OPEN ++ x ++ PROMPT_CLOSE ++ post) ->
      content (handleDownloadPrompt html theme) = PROMPT_NOT_FOUND).
Proof.
  split.
  - intros pre x post -> Hpre Hx Hne. split; [|apply trim_trimmedOf].
    rewrite content_prompt, promptText_marker by done. by destruct x.
  - intros Habs. rewrite content_prompt. unfold promptText.
    rewrite (matchPrompt_absent html Habs). reflexivity.
Qed.

Lemma exportPrompt_marker_witness :
  content (handleDownloadPrompt
             (str "<p>" ++ PROMPT_OPEN ++ str "  Serif headings, teal. "
              ++ PROMPT_CLOSE ++ str "</p>") (str "Dark Mode"))
    = str "Serif headings, teal."
  /\ content (handleDownloadPrompt (str "<p>no prompt here</p>")
                (str "Dark Mode"))
     = PROMPT_NOT_FOUND.
Proof.
  split.
  - refine (proj1 (proj1 (exportPrompt_marker _ (str "Dark Mode"))
                     (str "<p>") (str "  Serif headings, teal. ")
                     (str "</p>") eq_refl _ _ _)).
    + vm_compute; reflexivity.
    + vm_compute; reflexivity.
    + vm_compute; discriminate.
  - apply (proj2 (exportPrompt_marker (str "<p>no prompt here</p>")
                    (str "Dark Mode"))).
    apply absent_of_not_included. vm_compute; reflexivity.
Defined.

(** C9.  When the first opening tag of the marker is followed at once by
    [</script>], the capture is the empty string, which is falsy: the
    text of the download is the placeholder, as for a missing marker,
    and not the empty string. *)
Theorem exportPrompt_empty_marker (pre post theme : jsstr) :
  includes PROMPT_OPEN pre = false ->
  matchPrompt (pre ++ PROMPT_OPEN ++ PROMPT_CLOSE ++ post) = Some []
  /\ content (handleDownloadPrompt
                (pre ++ PROMPT_OPEN ++ PROMPT_CLOSE ++ post) theme)
     = PROMPT_NOT_FOUND
  /\ PROMPT_NOT_FOUND <> [].
Proof.
  intros Hpre.
  pose proof (matchPrompt_marker pre [] post Hpre eq_refl) as Hm.
  rewrite app_nil_l in Hm.
  split; [exact Hm|]. split; [|vm_compute; discriminate].
  rewrite content_prompt. unfold promptText. rewrite Hm. reflexivity.
Qed.

Lemma exportPrompt_empty_marker_witness :
  content (handleDownloadPrompt
             (str "<body>" ++ PROMPT_OPEN ++ PROMPT_CLOSE ++ str "</body>")
             (str "Dark Mode"))
  = PROMPT_NOT_FOUND.
Proof.
  refine (proj1 (proj2 (exportPrompt_empty_marker (str "<body>")
                          (str "</body>") (str "Dark Mode") _))).
  vm_compute; reflexivity.
Defined.

End ExportSpec.

(* ===================================================================== *)
(** ** The generation client against the specification *)
(* ===================================================================== *)

Module GeminiSpec.
Import JS Completion Json Gemini SpecWords Samples.

(** The guard of the client lets arrays through and nothing else: an
    array is truthy, and what is falsy is not an array. *)
Lemma guard_iff_array (d : JSValue) :
  negb (truthy d) || negb (isArray d) = negb (isArray d).
Proof. destruct d; simpl; try apply orb_true_r; reflexivity. Qed.

Lemma JSON_parse_throws (t : jsstr) (e : Exn) :
  JSON_parse t = Thrown e -> e = SyntaxError.
Proof.
  unfold JSON_parse. destruct (lexAll LIdle t) as [ts|]; [|congruence].
  destruct (parseAll [] XValue ts); congruence.
Qed.

Lemma getProperty_throws (d : JSValue) (k : jsstr) (e : Exn) :
  getProperty d k = Thrown e -> e = TypeError.
Proof. destruct d; simpl; congruence. Qed.

Section client.
Variable generateContent : list Part -> Outcome GenerateContentResponse.
Variables (prompt : jsstr) (fileBase64 mimeType : option jsstr).

Let parts := buildParts prompt fileBase64 mimeType.
Let call := bringToLife generateContent prompt fileBase64 mimeType.

Lemma bringToLife_cases :
  call =
  match generateContent parts with
  | Thrown e => Thrown e
  | Returned r =>
      match JSON_parse (orElse (text r) (str "{}")) with
      | Thrown e => Thrown e
      | Returned data =>
          match getProperty data (str "designs") with
          | Thrown e => Thrown e
          | Returned d =>
              if isArray d then Returned d
              else Thrown (Error INVALID_STRUCTURE)
          end
      end
  end.
Proof.
  unfold call, bringToLife, mbind, Outcome_bind, mret, Outcome_ret.
  fold parts.
  destruct (generateContent parts) as [r|e]; [|reflexivity].
  destruct (JSON_parse (orElse (text r) (str "{}"))) as [data|e];
    [|reflexivity].
  destruct (getProperty data (str "designs")) as [d|e]; [|reflexivity].
  rewrite guard_iff_array. destruct (isArray d); reflexivity.
Qed.
End client.

(** C1 (as stated) fails.  A body whose [designs] is the empty array is
    returned as a success with no entry, and one whose [designs] holds
    two numbers is returned as a success with these two entries: neither
    is a sequence of three theme variants, and neither call fails. *)
Lemma bringToLife_counterexample :
  bringToLife (answering (Some (quoted "{'designs': []}"))) (str "a shop")
              None None
    = Returned (JArray [])
  /\ isGenerationResult (JArray []) = false
  /\ bringToLife (answering (Some (quoted "{'designs': [1, 2]}")))
                 (str "a shop") None None
     = Returned (JArray [JNumber (str "1"); JNumber (str "2")])
  /\ isGenerationResult (JArray [JNumber (str "1"); JNumber (str "2")])
     = false.
Proof. repeat split; vm_compute; reflexivity. Qed.

(** A body of the requested shape is returned with its three variants. *)
Example bringToLife_three_designs :
  exists ds,
    bringToLife (answering (Some threeDesignsBody)) (str "a shop") None None
      = Returned (JArray ds)
    /\ isGenerationResult (JArray ds) = true
    /\ (fun v => getProperty v (str "themeName")) <$> ds
       = [Returned (JString (str "Corporate Clean"));
          Returned (JString (str "Bento Grid"));
          Returned (JString (str "Brutalist"))]
    /\ (fun v => getProperty v (str "html")) <$> ds !! 0%nat
       = Some (Returned (JString
                 (quoted "<!DOCTYPE html><html lang='en'>" ++ [10%N]
                  ++ str "</html>"))).
Proof. eexists. repeat split; vm_compute; reflexivity. Qed.

(** C1 (amended).  For every outcome of the external call, [bringToLife]
    either fails or returns the [designs] of the parsed body as it was
    parsed, which is an array: no entry is dropped or added, and neither
    the number of entries nor their fields are checked.  It fails with
    "Invalid response structure" whenever the body parses and its
    [designs] is missing or not an array; otherwise a failure is the
    error of the external call, the syntax error of [JSON.parse], or the
    type error of reading a property of [null]. *)
Theorem bringToLife_returns_designs
    (generateContent : list Part -> Outcome GenerateContentResponse)
    (prompt : jsstr) (fileBase64 mimeType : option jsstr) :
  let parts := buildParts prompt fileBase64 mimeType in
  let call := bringToLife generateContent prompt fileBase64 mimeType in
  (forall v,
      call = Returned v <->
      exists r data ds,
        generateContent parts = Returned r
        /\ JSON_parse (orElse (text r) (str "{}")) = Returned data
        /\ getProperty data (str "designs") = Returned (JArray ds)
        /\ v = JArray ds)
  /\ (forall r data d,
         generateContent parts = Returned r ->
         JSON_parse (orElse (text r) (str "{}")) = Returned data ->
         getProperty data (str "designs") = Returned d ->
         isArray d = false ->
         call = Thrown (Error INVALID_STRUCTURE))
  /\ (forall e,
         call = Thrown e ->
         generateContent parts = Thrown e
         \/ e = SyntaxError \/ e = TypeError
         \/ e = Error INVALID_STRUCTURE).
Proof.
  intros parts call. subst call.
  rewrite (bringToLife_cases generateContent prompt fileBase64 mimeType).
  fold parts. split; [intros v; split|split].
  - destruct (generateContent parts) as [r|e]; [|discriminate].
    destruct (JSON_parse _) as [data|e] eqn:Ep; [|discriminate].
    destruct (getProperty _ _) as [d|e] eqn:Eg; [|discriminate].
    destruct d; simpl; try discriminate.
    intros [= <-]. by exists r, data, items.
  - intros (r & data & ds & -> & -> & -> & ->). reflexivity.
  - intros r data d -> -> -> ->. reflexivity.
  - intros e. destruct (generateContent parts) as [r|e'];
      [|intros [= <-]; left; reflexivity].
    destruct (JSON_parse _) as [data|e'] eqn:Ep.
    + destruct (getProperty _ _) as [d|e''] eqn:Eg.
      * destruct (isArray d); [discriminate|]. intros [= <-]. auto.
      * intros [= <-]. apply getProperty_throws in Eg. auto.
    + intros [= <-]. apply JSON_parse_throws in Ep. auto.
Qed.

Lemma bringToLife_returns_designs_witness :
  bringToLife (answering (Some (quoted "{'designs': [1, 2]}")))
              (str "a shop") None None
    = Returned (JArray [JNumber (str "1"); JNumber (str "2")])
  /\ bringToLife (answering (Some (quoted "{'designs': {'html': 'x'}}")))
                 (str "a shop") None None
     = Thrown (Error INVALID_STRUCTURE).
Proof.
  split.
  - apply (proj1 (bringToLife_returns_designs
                    (answering (Some (quoted "{'designs': [1, 2]}")))
                    (str "a shop") None None)).
    eexists _, _, _. repeat split; vm_compute; reflexivity.
  - eapply (proj1 (proj2 (bringToLife_returns_designs
                    (answering (Some (quoted "{'designs': {'html': 'x'}}")))
                    (str "a shop") None None))).
    + reflexivity.
    + vm_compute; reflexivity.
    + vm_compute; reflexivity.
    + reflexivity.
Defined.

(** C10.  When the response carries no text, absent or empty, the client
    parses ["{}"] in its place; that is the empty object, whose
    [designs] is [undefined], so the call fails with "Invalid response
    structure", not with the syntax error of [JSON.parse], and nothing is
    returned. *)
Theorem bringToLife_empty_body
    (generateContent : list Part -> Outcome GenerateContentResponse)
    (prompt : jsstr) (fileBase64 mimeType : option jsstr)
    (r : GenerateContentResponse) :
  generateContent (buildParts prompt fileBase64 mimeType) = Returned r ->
  text r = None \/ text r = Some [] ->
  orElse (text r) (str "{}") = str "{}"
  /\ JSON_parse (str "{}") = Returned (JObject [])
  /\ bringToLife generateContent prompt fileBase64 mimeType
     = Thrown (Error INVALID_STRUCTURE)
  /\ Error INVALID_STRUCTURE <> SyntaxError
  /\ forall v, bringToLife generateContent prompt fileBase64 mimeType
               <> Returned v.
Proof.
  intros Hcall Hbody.
  assert (orElse (text r) (str "{}") = str "{}") as Hor.
  { destruct Hbody as [-> | ->]; reflexivity. }
  assert (bringToLife generateContent prompt fileBase64 mimeType
          = Thrown (Error INVALID_STRUCTURE)) as Hfail.
  { rewrite bringToLife_cases, Hcall, Hor. vm_compute. reflexivity. }
  repeat split; [exact Hor|exact Hfail|discriminate|].
  intros v. rewrite Hfail. discriminate.
Qed.

Lemma bringToLife_empty_body_witness :
  bringToLife (answering None) (str "a shop") None None
    = Thrown (Error INVALID_STRUCTURE)
  /\ bringToLife (answering (Some [])) (str "a shop") None None
     = Thrown (Error INVALID_STRUCTURE).
Proof.
  split.
  - refine (proj1 (proj2 (proj2 (bringToLife_empty_body
              (answering None) (str "a shop") None None
              {| text := None |} eq_refl (or_introl eq_refl))))).
  - refine (proj1 (proj2 (proj2 (bringToLife_empty_body
              (answering (Some [])) (str "a shop") None None
              {| text := Some [] |} eq_refl (or_intror eq_refl))))).
Defined.

End GeminiSpec.

(* ===================================================================== *)
(** ** The preview component against the specification *)
(* ===================================================================== *)

Module LivePreviewSpec.
Import JS LivePreview SpecWords Samples.

Lemma creationEffect_loadingStep (cr : option Creation.Creation) (st : State) :
  loadingStep (creationEffect cr st) = loadingStep st.
Proof.
  unfold creationEffect. destruct cr as [c|]; [|reflexivity].
  destruct (usableVersions c); [reflexivity|].
  destruct (usableHtml c); reflexivity.
Qed.

Lemma mount_inRange (cr : option Creation.Creation) (b : bool) :
  inRange (mount cr b).
Proof.
  unfold inRange, mount. destruct b; simpl;
    rewrite creationEffect_loadingStep; simpl; lia.
Qed.

Lemma tick_inRange (st : State) :
  (0 <= loadingStep st <= 4)%Z -> (0 <= loadingStep (tick st) <= 4)%Z.
Proof.
  unfold tick. simpl. destruct (Z.ltb_spec (loadingStep st) 4); lia.
Qed.

Lemma step_inRange (c : Component) (ev : Event) :
  inRange c -> inRange (step c ev).
Proof.
  unfold inRange, step. intros H.
  destruct (enabled c ev); [|exact H].
  destruct ev; simpl; try exact H.
  - destruct (Bool.eqb b (isLoading c)); [exact H|].
    destruct b; simpl; lia.
  - rewrite creationEffect_loadingStep. exact H.
  - exact (tick_inRange _ H).
Qed.

Lemma run_inRange (evs : list Event) (c : Component) :
  inRange c -> inRange (run c evs).
Proof.
  revert c. induction evs as [|ev evs IH]; intros c H; [exact H|].
  apply IH, step_inRange, H.
Qed.

(** [n] ticks while the interval runs add [n] to the step, up to 4. *)
Lemma run_ticks (n : nat) (c : Component) :
  interval c = true ->
  inRange c ->
  loadingStep (state (run c (replicate n Tick)))
  = Z.min (loadingStep (state c) + Z.of_nat n) 4
  /\ interval (run c (replicate n Tick)) = true.
Proof.
  revert c. induction n as [|n IH]; intros c Hi Hr.
  - simpl. unfold inRange in Hr. split; [lia|exact Hi].
  - change (run c (replicate (S n) Tick))
      with (run (step c Tick) (replicate n Tick)).
    assert (interval (step c Tick) = true) as Hi'.
    { unfold step. simpl. rewrite Hi. exact Hi. }
    destruct (IH (step c Tick) Hi' (step_inRange c Tick Hr)) as [IH1 IH2].
    split; [|exact IH2]. rewrite IH1.
    unfold step, inRange in *. simpl. rewrite Hi. simpl.
    destruct (Z.ltb_spec (loadingStep (state c)) 4); lia.
Qed.

Lemma step_selection (c : Component) (ev : Event) :
  isSelection ev ->
  activeVersions (state (step c ev)) = activeVersions (state c).
Proof.
  unfold step. intros H. destruct (enabled c ev); [|reflexivity].
  destruct ev; simpl in *; done.
Qed.

Lemma run_selection (evs : list Event) (c : Component) :
  Forall isSelection evs ->
  activeVersions (state (run c evs)) = activeVersions (state c).
Proof.
  intros H. revert c. induction H as [|ev evs Hev _ IH]; intros c.
  - reflexivity.
  - change (run c (ev :: evs)) with (run (step c ev) evs).
    rewrite IH. apply step_selection, Hev.
Qed.

Lemma reset_effect (c : Component) :
  activeVersions (state (step c Reset)) = []
  /\ selectedVersionIndex (state (step c Reset))
     = selectedVersionIndex (state c)
  /\ focusedVersion (state (step c Reset)) = None.
Proof.
  unfold step, focusedVersion. simpl.
  repeat split. by destruct (selectedVersionIndex (state c)).
Qed.

(** *** Loading simulation *)

(** C2 (as stated) fails.  Four ticks after the start of a generation
    the step is 4, which is outside [[0,3]]: the callback compares with 4,
    and the fourth row of the list is shown completed at that value. *)
Lemma loadingStep_counterexample :
  let c := run (mount None false) [SetIsLoading true; Tick; Tick; Tick; Tick] in
  loadingStep (state c) = 4%Z
  /\ ~ (0 <= loadingStep (state c) <= 3)%Z
  /\ stepCompleted 3 (state c) = true.
Proof.
  vm_compute. repeat split. intros [_ H]. apply H. reflexivity.
Qed.

(** C2 (amended).  The loading step is always an integer in [[0,4]]:
    starting a generation sets it to 0 and starts the interval, each tick
    adds 1 until it is 4, further ticks leave it at 4 (it never reaches
    5), and the end of the generation sets it to 0 and stops the
    interval. *)
Theorem loadingStep_bounds :
  (forall creation0 isLoading0 evs,
      (0 <= loadingStep (state (run (mount creation0 isLoading0) evs)) <= 4)%Z)
  /\ (forall c,
         isLoading c = false ->
         loadingStep (state (step c (SetIsLoading true))) = 0%Z
         /\ interval (step c (SetIsLoading true)) = true)
  /\ (forall c n,
         interval c = true ->
         loadingStep (state c) = 0%Z ->
         loadingStep (state (run c (replicate n Tick)))
         = Z.min (Z.of_nat n) 4)
  /\ (forall c,
         interval c = true ->
         loadingStep (state c) = 4%Z ->
         loadingStep (state (step c Tick)) = 4%Z)
  /\ (forall c,
         isLoading c = true ->
         loadingStep (state (step c (SetIsLoading false))) = 0%Z
         /\ interval (step c (SetIsLoading false)) = false).
Proof.
  split; [|split; [|split; [|split]]].
  - intros cr b evs. apply run_inRange, mount_inRange.
  - intros c H. unfold step. simpl. rewrite H. simpl. by split.
  - intros c n Hi H0.
    destruct (run_ticks n c Hi) as [Hn _]; [unfold inRange; lia|].
    rewrite Hn, H0. reflexivity.
  - intros c Hi H4. unfold step. simpl. rewrite Hi. simpl. rewrite H4.
    reflexivity.
  - intros c H. unfold step. simpl. rewrite H. simpl. by split.
Qed.

Lemma loadingStep_bounds_witness :
  let c := step (mount None false) (SetIsLoading true) in
  loadingStep (state c) = 0%Z
  /\ loadingStep (state (run c (replicate 6 Tick))) = 4%Z
  /\ loadingStep (state (step c (SetIsLoading false))) = 0%Z.
Proof.
  destruct loadingStep_bounds as (_ & Hstart & Hticks & _ & Hend).
  cbv zeta. split; [|split].
  - exact (proj1 (Hstart (mount None false) eq_refl)).
  - exact (Hticks (step (mount None false) (SetIsLoading true)) 6%nat
             eq_refl eq_refl).
  - exact (proj1 (Hend (step (mount None false) (SetIsLoading true))
                    eq_refl)).
Defined.

(** *** The versions of the creation *)

(** C4: the code at the failing input.  Three themes arrive, the user
    focuses the second, then resets: the themes are cleared, the
    selection is still 1 and not [null]. *)
Theorem reset_leaves_selection :
  let c := run (mount None false)
               [SetCreation (Some generated); ClickTab 1; Reset] in
  creation c = None
  /\ activeVersions (state c) = []
  /\ selectedVersionIndex (state c) = Some 1%nat
  /\ selectedVersionIndex (state c) <> selectedVersionIndex initialState.
Proof. vm_compute. repeat split. discriminate. Qed.

(** C6 (as stated) fails.  A creation with an [html] field that is the
    empty string and no [versions] is not normalized: the effect takes
    neither branch, so the preview keeps no theme after a mount, and
    keeps the three themes and the selection it had before. *)
Lemma legacy_counterexample :
  activeVersions (state (step (mount None false)
                              (SetCreation (Some emptyLegacy)))) = []
  /\ selectedVersionIndex (state (step (mount None false)
                                 (SetCreation (Some emptyLegacy)))) = None
  /\ activeVersions (state (step (mount (Some generated) false)
                                 (SetCreation (Some emptyLegacy))))
     = threeThemes.
Proof. vm_compute. repeat split. Qed.

(** C6 (amended).  For every legacy input whose [html] is a string that
    is not empty, and which has no [versions] array, the effect makes the
    one-element list whose only theme wraps that [html], and sets the
    selection to index 0, not to "Show All". *)
Theorem legacy_html_normalized (c : Component) (cr : Creation.Creation)
    (h : jsstr) :
  Creation.versions cr = None ->
  Creation.html cr = Some h ->
  h <> [] ->
  activeVersions (state (step c (SetCreation (Some cr)))) = [legacyVersion h]
  /\ Gemini.html (legacyVersion h) = h
  /\ selectedVersionIndex (state (step c (SetCreation (Some cr))))
     = Some 0%nat
  /\ focusedVersion (state (step c (SetCreation (Some cr))))
     = Some (legacyVersion h).
Proof.
  intros Hv Hh Hne. unfold step, focusedVersion. simpl.
  unfold creationEffect, usableVersions, usableHtml. rewrite Hv, Hh.
  destruct h; [done|]. simpl. repeat split.
Qed.

Lemma legacy_html_normalized_witness :
  selectedVersionIndex
    (state (step (mount (Some generated) false) (SetCreation (Some legacy))))
  = Some 0%nat.
Proof.
  refine (proj1 (proj2 (proj2 (legacy_html_normalized
            (mount (Some generated) false) legacy (str "<html></html>")
            eq_refl eq_refl _)))).
  vm_compute. discriminate.
Defined.

(** C7.  Whenever a creation with a non-empty [versions] array arrives,
    the versions become the active ones and the selection is set to
    [null], "Show All", whatever it was before; the same holds at the
    first render. *)
Theorem versions_show_all (c : Component) (cr : Creation.Creation)
    (vs : list Gemini.DesignVersion) (loading : bool) :
  Creation.versions cr = Some vs ->
  vs <> [] ->
  selectedVersionIndex (state (step c (SetCreation (Some cr)))) = None
  /\ activeVersions (state (step c (SetCreation (Some cr)))) = vs
  /\ selectedVersionIndex (state (mount (Some cr) loading)) = None
  /\ activeVersions (state (mount (Some cr) loading)) = vs.
Proof.
  intros Hv Hne. unfold step, mount. simpl.
  unfold creationEffect, usableVersions. rewrite Hv.
  destruct vs; [done|]. destruct loading; simpl; repeat split.
Qed.

Lemma versions_show_all_witness :
  let c := run (mount None false)
               [SetCreation (Some generated); ClickTab 2] in
  selectedVersionIndex (state c) = Some 2%nat
  /\ selectedVersionIndex (state (step c (SetCreation (Some generated))))
     = None.
Proof.
  split; [reflexivity|].
  refine (proj1 (versions_show_all _ generated threeThemes false
                   eq_refl _)).
  vm_compute. discriminate.
Defined.

(** C8.  While the tabs are shown, a click on the tab of a valid index
    [k] sets the selection to [k], and a click on the compare tab sets it
    to [null]; in the gallery a click on the preview of theme [k] sets it
    to [k].  The component after the click is the component before it
    with the new selection, and no sequence of such clicks changes the
    active versions. *)
Theorem selection_keeps_versions (c : Component) (k : nat) :
  (k < length (activeVersions (state c)))%nat ->
  (tabsShown c = true ->
   step c (ClickTab k)
     = withState c (setSelectedVersionIndex (Some k) (state c))
   /\ step c ClickCompare
      = withState c (setSelectedVersionIndex None (state c)))
  /\ (galleryShown c = true ->
      step c (ClickPreview k)
        = withState c (setSelectedVersionIndex (Some k) (state c)))
  /\ selectedVersionIndex (setSelectedVersionIndex (Some k) (state c))
     = Some k
  /\ focusedVersion (setSelectedVersionIndex (Some k) (state c))
     = activeVersions (state c) !! k
  /\ is_Some (activeVersions (state c) !! k)
  /\ forall evs, Forall isSelection evs ->
                 activeVersions (state (run c evs)) = activeVersions (state c).
Proof.
  intros Hk.
  assert ((k <? length (activeVersions (state c)))%nat = true) as Hkb
    by (apply Nat.ltb_lt; exact Hk).
  split; [|split; [|split; [|split; [|split]]]].
  - intros Ht. unfold step. simpl. rewrite Ht, Hkb. by split.
  - intros Hg. unfold step. simpl. rewrite Hg, Hkb. reflexivity.
  - reflexivity.
  - reflexivity.
  - apply lookup_lt_is_Some. exact Hk.
  - intros evs Hevs. apply run_selection, Hevs.
Qed.

Lemma selection_keeps_versions_witness :
  let c := step (mount None false) (SetCreation (Some generated)) in
  selectedVersionIndex (state (step c (ClickTab 1))) = Some 1%nat
  /\ activeVersions (state (step c (ClickTab 1))) = threeThemes
  /\ selectedVersionIndex
       (state (step (step c (ClickTab 1)) ClickCompare)) = None
  /\ activeVersions (state (step (step c (ClickTab 1)) ClickCompare))
     = threeThemes.
Proof.
  cbv zeta.
  set (c := step (mount None false) (SetCreation (Some generated))).
  assert ((1 < length (activeVersions (state c)))%nat) as H1
    by (vm_compute; lia).
  destruct (selection_keeps_versions c 1 H1) as (Htabs & _).
  destruct (Htabs eq_refl) as [Htab _]. rewrite Htab.
  assert ((1 < length (activeVersions
             (state (withState c
                (setSelectedVersionIndex (Some 1%nat) (state c))))))%nat)
    as H2 by (vm_compute; lia).
  destruct (selection_keeps_versions _ 1 H2) as (Htabs' & _).
  destruct (Htabs' eq_refl) as [_ Hcmp]. rewrite Hcmp.
  repeat split.
Defined.

End LivePreviewSpec.

(* ===================================================================== *)
(** ** Further properties of the preview component *)
(* ===================================================================== *)

Module LivePreviewMore.
Import JS LivePreview LivePreviewView SpecWords MoreWords Samples.
Import LivePreviewSpec.

Lemma creationEffect_cases (o : option Creation.Creation) (st : State) :
  (exists cr vs, o = Some cr /\ usableVersions cr = Some vs /\ vs <> []
     /\ creationEffect o st
        = setSelectedVersionIndex None (setActiveVersions vs st))
  \/ (exists cr h, o = Some cr /\ usableVersions cr = None
        /\ usableHtml cr = Some h /\ h <> []
        /\ creationEffect o st
           = setSelectedVersionIndex (Some 0%nat)
               (setActiveVersions [legacyVersion h] st))
  \/ (exists cr, o = Some cr /\ usableVersions cr = None
        /\ usableHtml cr = None /\ creationEffect o st = st)
  \/ (o = None /\ creationEffect o st = setActiveVersions [] st).
Proof.
  destruct o as [cr|]; [|by repeat right].
  unfold creationEffect.
  destruct (usableVersions cr) as [vs|] eqn:Ev.
  - left. exists cr, vs. repeat split; try done.
    unfold usableVersions in Ev. destruct (Creation.versions cr) as [ws|]; [|done].
    destruct ws; simpl in Ev; [done|]. by injection Ev as <-.
  - right. destruct (usableHtml cr) as [h|] eqn:Eh.
    + left. exists cr, h. repeat split; try done.
      unfold usableHtml in Eh. destruct (Creation.html cr) as [g|]; [|done].
      destruct g; simpl in Eh; [done|]. by injection Eh as <-.
    + right. left. by exists cr.
Qed.

Lemma mount_settled (cr : option Creation.Creation) (b : bool) :
  settled (mount cr b).
Proof.
  unfold settled, mount. destruct b; simpl.
  all: match goal with
       | |- context [creationEffect ?o ?st] =>
           destruct (creationEffect_cases o st)
             as [(c & vs & -> & Ev & Hvs & E)|[(c & h & -> & Ev & Eh & Hh & E)
                |[(c & -> & Ev & Eh & E)|[-> E]]]]
       end; rewrite E; simpl; repeat split; try done; intros k [= <-] _; lia.
Qed.

Lemma step_settled (c : Component) (ev : Event) :
  settled c -> settled (step c ev).
Proof.
  intros (Hi & H0 & Hsel & Hcr). unfold step.
  destruct (enabled c ev) eqn:En; [|by repeat split].
  destruct ev; simpl in *.
  - destruct (Bool.eqb b (isLoading c)); [by repeat split|].
    destruct b; simpl; repeat split; try done.
  - unfold settled. simpl.
    destruct (creationEffect_cases c0 (state c))
      as [(cr & vs & -> & Ev & Hvs & E)|[(cr & h & -> & Ev & Eh & Hh & E)
         |[(cr & -> & Ev & Eh & E)|[-> E]]]];
      rewrite E; simpl; repeat split; try done.
    intros k [= <-] _. lia.
  - unfold settled. simpl. repeat split; try done.
  - unfold settled. simpl. repeat split; try done.
    intros Hl. rewrite Hi, Hl in En. done.
  - unfold settled. simpl. repeat split; try done.
  - unfold settled. simpl. repeat split; try done.
    intros k [= <-] _. apply andb_prop in En as [_ En].
    by apply Nat.ltb_lt.
  - unfold settled. simpl. repeat split; try done.
    intros k [= <-] _. apply andb_prop in En as [_ En].
    by apply Nat.ltb_lt.
Qed.

Lemma run_settled (evs : list Event) (c : Component) :
  settled c -> settled (run c evs).
Proof.
  revert c. induction evs as [|ev evs IH]; intros c H; [exact H|].
  apply IH, step_settled, H.
Qed.

Lemma reachable_settled (c : Component) : reachable c -> settled c.
Proof. intros (cr & b & evs & ->). apply run_settled, mount_settled. Qed.

Lemma reachable_inRange (c : Component) : reachable c -> inRange c.
Proof. intros (cr & b & evs & ->). apply run_inRange, mount_inRange. Qed.

Lemma reachable_step (c : Component) (ev : Event) :
  reachable c -> reachable (step c ev).
Proof.
  intros (cr & b & evs & ->). exists cr, b, (evs ++ [ev]).
  unfold run. rewrite foldl_snoc. reflexivity.
Qed.

(** *** The loading simulation *)

(** In every component that events lead to, the interval runs exactly
    while [isLoading] holds; when it does not, the loading step is 0 and a
    tick cannot change anything. *)
Theorem interval_runs_while_loading (creation0 : option Creation.Creation)
    (isLoading0 : bool) (evs : list Event) :
  let c := run (mount creation0 isLoading0) evs in
  interval c = isLoading c
  /\ (isLoading c = false ->
      loadingStep (state c) = 0%Z /\ step c Tick = c).
Proof.
  intros c.
  destruct (run_settled evs _ (mount_settled creation0 isLoading0))
    as (Hi & H0 & _). fold c in Hi, H0.
  split; [exact Hi|]. intros Hl. split; [exact (H0 Hl)|].
  unfold step. simpl. rewrite Hi, Hl. reflexivity.
Qed.

Lemma interval_runs_while_loading_witness :
  let c := run (mount None false)
               [SetIsLoading true; Tick; Tick; SetIsLoading false; Tick] in
  loadingStep (state c) = 0%Z /\ interval c = false.
Proof.
  cbv zeta.
  destruct (interval_runs_while_loading None false
              [SetIsLoading true; Tick; Tick; SetIsLoading false; Tick])
    as [Hi H0].
  split; [exact (proj1 (H0 eq_refl))|exact Hi].
Defined.

(** The four rows of the loading list follow the step: in every component
    that events lead to, the rows below the step are completed, the row at
    the step is active and the rows above it are pending; the icon and the
    label of a row, which test [active] and [completed] in opposite
    orders, always agree; and the number of completed rows is the step. *)
Theorem rows_follow_step (creation0 : option Creation.Creation)
    (isLoading0 : bool) (evs : list Event) :
  let st := state (run (mount creation0 isLoading0) evs) in
  Forall (fun i =>
            iconLook (stepActive i st) (stepCompleted i st)
              = labelLook (stepActive i st) (stepCompleted i st)
            /\ iconLook (stepActive i st) (stepCompleted i st)
               = (if (i <? loadingStep st)%Z then Completed
                  else if (i =? loadingStep st)%Z then Active else Pending)
            /\ rowLit (stepActive i st) (stepCompleted i st)
               = (i <=? loadingStep st)%Z)
         ROWS
  /\ Z.of_nat (length (List.filter (fun i => stepCompleted i st) ROWS))
     = loadingStep st
  /\ length (List.filter (fun i => stepActive i st) ROWS)
     = (if (loadingStep st <? 4)%Z then 1 else 0)%nat.
Proof.
  intros st.
  pose proof (run_inRange evs _ (mount_inRange creation0 isLoading0)) as Hr.
  unfold inRange in Hr. fold st in Hr.
  unfold stepActive, stepCompleted, iconLook, labelLook, rowLit, ROWS.
  assert (loadingStep st = 0 \/ loadingStep st = 1 \/ loadingStep st = 2
          \/ loadingStep st = 3 \/ loadingStep st = 4)%Z as Hcases by lia.
  destruct Hcases as [-> |[-> |[-> |[-> | ->]]]];
    (split; [repeat constructor|split; reflexivity]).
Qed.

(** *** What the main content shows *)

(** In every component that events lead to: while loading, only the
    loading overlay is rendered; otherwise, when there are themes, exactly
    one of the gallery and the focused view is rendered, so the content is
    never blank while themes exist. *)
Theorem one_region_rendered (creation0 : option Creation.Creation)
    (isLoading0 : bool) (evs : list Event) :
  let c := run (mount creation0 isLoading0) evs in
  (isLoading c = true ->
   loadingShown c = true /\ galleryShown c = false /\ focusedShown c = false)
  /\ (isLoading c = false ->
      activeVersions (state c) <> [] ->
      loadingShown c = false /\ galleryShown c = negb (focusedShown c)).
Proof.
  intros c.
  destruct (run_settled evs _ (mount_settled creation0 isLoading0))
    as (_ & _ & Hsel & _). fold c in Hsel.
  unfold loadingShown, galleryShown, focusedShown, focusedVersion.
  split; intros Hl; rewrite Hl; simpl; [done|].
  intros Hvs. split; [done|].
  destruct (selectedVersionIndex (state c)) as [k|] eqn:Ek; [|done].
  destruct (lookup_lt_is_Some_2 _ _ (Hsel k eq_refl Hvs)) as [v ->]. done.
Qed.

Lemma one_region_rendered_witness :
  let c := run (mount None false)
               [SetCreation (Some generated); ClickTab 2; Reset;
                SetCreation (Some legacy)] in
  galleryShown c = negb (focusedShown c).
Proof.
  cbv zeta.
  refine (proj2 (proj2 (one_region_rendered None false
            [SetCreation (Some generated); ClickTab 2; Reset;
             SetCreation (Some legacy)]) eq_refl _)).
  vm_compute. discriminate.
Defined.

Lemma count_tab (sel : option nat) (a n : nat) :
  length (List.filter (fun t => bool_decide (sel = t)) (Some <$> seq a n))
  = match sel with
    | Some k => if bool_decide (a <= k < a + n)%nat then 1%nat else 0%nat
    | None => 0%nat
    end.
Proof.
  revert a. induction n as [|n IH]; intros a.
  - simpl. destruct sel as [k|]; [|done]. case_bool_decide; [lia|done].
  - change (seq a (S n)) with (a :: seq (S a) n). rewrite fmap_cons.
    cbn [List.filter].
    destruct (bool_decide (sel = Some a)) eqn:E; cbn [length]; rewrite IH.
    + apply bool_decide_eq_true in E as ->.
      repeat case_bool_decide; lia.
    + apply bool_decide_eq_false in E.
      destruct sel as [k|]; [|done].
      assert (k <> a) by congruence.
      repeat case_bool_decide; lia.
Qed.

(** Whenever the tab strip is rendered in a component that events lead
    to, exactly one of its tabs is highlighted: the compare tab when the
    selection is [null], the tab of the selected index otherwise. *)
Theorem one_tab_active (creation0 : option Creation.Creation)
    (isLoading0 : bool) (evs : list Event) :
  let c := run (mount creation0 isLoading0) evs in
  tabsShown c = true ->
  length (List.filter (tabActive c) (tabs c)) = 1%nat.
Proof.
  intros c Ht.
  destruct (run_settled evs _ (mount_settled creation0 isLoading0))
    as (_ & _ & Hsel & _). fold c in Hsel.
  assert (activeVersions (state c) <> []) as Hvs.
  { unfold tabsShown in Ht. apply andb_prop in Ht as [_ Ht].
    apply Nat.ltb_lt in Ht. intros E. rewrite E in Ht. simpl in Ht. lia. }
  unfold tabs, tabActive. cbn [List.filter].
  destruct (selectedVersionIndex (state c)) as [k|] eqn:Ek.
  - rewrite bool_decide_eq_false_2 by done.
    rewrite (count_tab (Some k) 0).
    rewrite bool_decide_eq_true_2; [done|].
    specialize (Hsel k eq_refl Hvs). lia.
  - rewrite bool_decide_eq_true_2 by done. cbn [length].
    rewrite (count_tab None 0). reflexivity.
Qed.

Lemma one_tab_active_witness :
  let c := run (mount None false)
               [SetCreation (Some generated); ClickTab 2] in
  List.filter (tabActive c) (tabs c) = [Some 2%nat].
Proof.
  cbv zeta.
  pose proof (one_tab_active None false
                [SetCreation (Some generated); ClickTab 2] eq_refl) as H.
  cbv zeta in H.
  destruct (List.filter _ _) as [|t [|t' l]] eqn:E in H |- *; try discriminate H.
  assert (In t [t]) as Hin by (left; reflexivity).
  rewrite <- E in Hin. apply filter_In in Hin as [_ Hin].
  apply bool_decide_eq_true in Hin. vm_compute in Hin. congruence.
Defined.

(** *** The themes and the creation *)

Lemma step_keeps_themes (c : Component) (ev : Event) :
  ~ changesCreation ev ->
  activeVersions (state (step c ev)) = activeVersions (state c)
  /\ creation (step c ev) = creation c.
Proof.
  intros Hev. unfold step. destruct (enabled c ev); [|done].
  destruct ev; simpl in *; try done.
  destruct (Bool.eqb b (isLoading c)); [done|]. by destruct b.
Qed.

(** The themes are replaced only when a creation is passed: no sequence
    of ticks, of changes of [isLoading] and of clicks changes the active
    versions or the creation. *)
Theorem themes_change_with_creation_only (c : Component)
    (evs : list Event) :
  Forall (fun ev => ~ changesCreation ev) evs ->
  activeVersions (state (run c evs)) = activeVersions (state c)
  /\ creation (run c evs) = creation c.
Proof.
  intros H. revert c. induction H as [|ev evs Hev _ IH]; intros c; [done|].
  change (run c (ev :: evs)) with (run (step c ev) evs).
  destruct (IH (step c ev)) as [-> ->]. by apply step_keeps_themes.
Qed.

Lemma themes_change_with_creation_only_witness :
  activeVersions
    (state (run (mount (Some generated) false)
                [SetIsLoading true; Tick; ClickTab 1; Tick;
                 SetIsLoading false; ClickTab 1; ClickCompare]))
  = threeThemes.
Proof.
  refine (proj1 (themes_change_with_creation_only
                   (mount (Some generated) false) _ _)).
  repeat constructor; simpl; tauto.
Defined.

Lemma creationEffect_setLoadingStep (o : option Creation.Creation)
    (f : Z -> Z) (st : State) :
  creationEffect o (setLoadingStep f st)
  = setLoadingStep f (creationEffect o st).
Proof.
  unfold creationEffect. destruct o as [cr|]; [|reflexivity].
  destruct (usableVersions cr); [reflexivity|].
  destruct (usableHtml cr); reflexivity.
Qed.

(** The two effects do not interfere: passing a creation and changing
    [isLoading] lead to the same component in either order. *)
Theorem effects_commute (c : Component) (b : bool)
    (o : option Creation.Creation) :
  step (step c (SetIsLoading b)) (SetCreation o)
  = step (step c (SetCreation o)) (SetIsLoading b).
Proof.
  unfold step. simpl.
  destruct (Bool.eqb b (isLoading c)); [reflexivity|].
  unfold receiveCreation. destruct b; simpl;
    rewrite creationEffect_setLoadingStep; reflexivity.
Qed.





(** The effect reads the creation in a fixed order.  A [versions] array
    that is not empty is taken and [html] is not read.  A [versions] array
    that is empty counts as absent: an [html] that is not empty is then
    wrapped as the single "Standard Theme" and focused.  With neither, the
    effect leaves the themes and the selection as they were. *)
Theorem creation_sources_precedence (c : Component)
    (cr : Creation.Creation) :
  (forall vs h',
      Creation.versions cr = Some vs -> vs <> [] ->
      state (step c (SetCreation (Some cr)))
      = state (step c (SetCreation (Some
                 {| Creation.name := Creation.name cr;
                    Creation.html := h';
                    Creation.versions := Some vs |}))))
  /\ (forall h,
         Creation.versions cr = Some [] -> Creation.html cr = Some h ->
         h <> [] ->
         activeVersions (state (step c (SetCreation (Some cr))))
         = [legacyVersion h]
         /\ selectedVersionIndex (state (step c (SetCreation (Some cr))))
            = Some 0%nat)
  /\ ((Creation.versions cr = None \/ Creation.versions cr = Some []) ->
      (Creation.html cr = None \/ Creation.html cr = Some []) ->
      state (step c (SetCreation (Some cr))) = state c).
Proof.
  unfold step. simpl. unfold creationEffect, usableVersions, usableHtml.
  split; [|split].
  - intros vs h' -> Hvs. simpl. by destruct vs.
  - intros h -> -> Hh. simpl. by destruct h.
  - intros [-> | ->] [-> | ->]; reflexivity.
Qed.

Lemma creation_sources_precedence_witness :
  activeVersions
    (state (step (mount None false) (SetCreation (Some emptyVersions))))
  = [legacyVersion (str "<p></p>")]
  /\ state (step (mount (Some generated) false)
              (SetCreation (Some emptyLegacy)))
     = state (mount (Some generated) false).
Proof.
  split.
  - refine (proj1 (proj1 (proj2 (creation_sources_precedence
              (mount None false) emptyVersions)) (str "<p></p>")
              eq_refl eq_refl _)).
    vm_compute. discriminate.
  - exact (proj2 (proj2 (creation_sources_precedence
              (mount (Some generated) false) emptyLegacy))
              (or_introl eq_refl) (or_intror eq_refl)).
Defined.

(** After a legacy creation has been taken, the preview holds one theme
    and is focused on it: neither the tabs nor the gallery are rendered,
    so no click can change the selection. *)
Theorem legacy_locks_focus (c : Component) (cr : Creation.Creation)
    (h : jsstr) (evs : list Event) :
  usableVersions cr = None ->
  usableHtml cr = Some h ->
  Forall isSelection evs ->
  tabsShown (step c (SetCreation (Some cr))) = false
  /\ galleryShown (step c (SetCreation (Some cr))) = false
  /\ run (step c (SetCreation (Some cr))) evs
     = step c (SetCreation (Some cr)).
Proof.
  intros Ev Eh Hevs.
  set (c' := step c (SetCreation (Some cr))).
  assert (tabsShown c' = false /\ galleryShown c' = false) as [Ht Hg].
  { unfold c', step, tabsShown, galleryShown. simpl.
    unfold creationEffect. rewrite Ev, Eh. simpl.
    split; apply andb_false_r. }
  split; [exact Ht|]. split; [exact Hg|].
  induction Hevs as [|ev evs Hev _ IH]; [reflexivity|].
  change (run c' (ev :: evs)) with (run (step c' ev) evs).
  assert (step c' ev = c') as ->; [|exact IH].
  unfold step. destruct ev; simpl in *; try done; rewrite ?Ht, ?Hg; done.
Qed.

Lemma legacy_locks_focus_witness :
  run (step (mount None false) (SetCreation (Some legacy)))
      [ClickCompare; ClickTab 0; ClickPreview 0]
  = step (mount None false) (SetCreation (Some legacy)).
Proof.
  refine (proj2 (proj2 (legacy_locks_focus (mount None false) legacy
            (str "<html></html>") [ClickCompare; ClickTab 0; ClickPreview 0]
            eq_refl eq_refl _))).
  repeat constructor.
Defined.

(** *** The downloads of the header and the gallery *)

(** In every component that events lead to, a focused theme comes with a
    creation: the "Download HTML" button of the header never meets the
    early return of its handler, and the file it makes holds the markup of
    the focused theme as it is. *)
Theorem header_download_has_creation (creation0 : option Creation.Creation)
    (isLoading0 : bool) (evs : list Event) (v : Gemini.DesignVersion) :
  let c := run (mount creation0 isLoading0) evs in
  focusedVersion (state c) = Some v ->
  exists cr d,
    creation c = Some cr
    /\ clickDownloadHtml c = Some (Some d)
    /\ ExportHelpers.content d = Gemini.html v
    /\ ExportHelpers.mime d = str "text/html".
Proof.
  intros c Hv.
  destruct (run_settled evs _ (mount_settled creation0 isLoading0))
    as (_ & _ & _ & Hcr). fold c in Hcr.
  assert (activeVersions (state c) <> []) as Hvs.
  { unfold focusedVersion in Hv.
    destruct (selectedVersionIndex (state c)); [|done].
    intros E. rewrite E in Hv. done. }
  destruct (creation c) as [cr|] eqn:Ec; [|by destruct (Hcr Hvs)].
  unfold clickDownloadHtml. rewrite Hv, Ec. simpl. by eexists _, _.
Qed.

Lemma header_download_has_creation_witness :
  exists d,
    clickDownloadHtml
      (run (mount None false) [SetCreation (Some generated); ClickTab 1])
    = Some (Some d)
    /\ ExportHelpers.filename d = str "shop_Bento Grid.html".
Proof.
  destruct (header_download_has_creation None false
              [SetCreation (Some generated); ClickTab 1] (theme "Bento Grid")
              eq_refl) as (cr & d & _ & Hd & _).
  exists d. split; [exact Hd|].
  vm_compute in Hd. injection Hd as <-. vm_compute. reflexivity.
Defined.

Lemma thumbnail_source (st : State) (t : Thumbnail) :
  t ∈ thumbnails st ->
  exists v, activeVersions st !! opens t = Some v
            /\ srcDoc t = Gemini.html v
            /\ exists page, page ∈ PREVIEW_PAGES /\ hash t = fst page
                            /\ title t = Gemini.themeName v ++ str " - "
                                         ++ snd page.
Proof.
  unfold thumbnails. intros Ht.
  apply list_elem_of_join in Ht as (ts & Ht & Hts).
  apply elem_of_lookup_imap in Hts as (idx & v & -> & Hv).
  unfold thumbnailsOf in Ht.
  apply list_elem_of_fmap in Ht as (page & -> & Hpage).
  exists v. simpl. split; [exact Hv|]. split; [reflexivity|].
  by exists page.
Qed.

Lemma length_join_imap {A B : Type} (n : nat) (g : nat -> A -> list B)
    (l : list A) :
  (forall i v, length (g i v) = n) ->
  length (mjoin (imap g l)) = (n * length l)%nat.
Proof.
  revert g. induction l as [|v l IH]; intros g Hg; simpl; [lia|].
  rewrite length_app, Hg, (IH (g ∘ S)); [lia|].
  intros i w. apply Hg.
Qed.

(** The gallery shows three thumbnails for each theme, one for each page
    of [PREVIEW_PAGES], and a click on a thumbnail focuses the theme whose
    markup the thumbnail shows, never another one. *)
Theorem thumbnail_opens_its_theme (c : Component) (t : Thumbnail) :
  length (thumbnails (state c)) = (3 * length (activeVersions (state c)))%nat
  /\ (galleryShown c = true ->
      t ∈ thumbnails (state c) ->
      exists v,
        focusedVersion (state (step c (ClickPreview (opens t)))) = Some v
        /\ Gemini.html v = srcDoc t
        /\ hash t ∈ (fst <$> PREVIEW_PAGES)).
Proof.
  split.
  - unfold thumbnails. apply length_join_imap. reflexivity.
  - intros Hg Ht.
    destruct (thumbnail_source _ _ Ht) as (v & Hv & Hsrc & page & Hp & Hh & _).
    exists v. split; [|split; [done|]].
    + unfold step. simpl. rewrite Hg. simpl.
      rewrite (proj2 (Nat.ltb_lt _ _) (lookup_lt_Some _ _ _ Hv)).
      unfold focusedVersion. simpl. exact Hv.
    + rewrite Hh. apply list_elem_of_fmap. by exists page.
Qed.

Lemma thumbnail_opens_its_theme_witness :
  let c := mount (Some generated) false in
  exists t v, thumbnails (state c) !! 4%nat = Some t
    /\ focusedVersion (state (step c (ClickPreview (opens t)))) = Some v
    /\ Gemini.themeName v = str "Bento Grid"
    /\ hash t = str "#page-features".
Proof.
  cbv zeta.
  destruct (thumbnails (state (mount (Some generated) false)) !! 4%nat)
    as [t|] eqn:Et; [|vm_compute in Et; discriminate].
  destruct (proj2 (thumbnail_opens_its_theme
                     (mount (Some generated) false) t) eq_refl
                  (list_elem_of_lookup_2 _ _ _ Et)) as (v & Hv & _ & _).
  exists t, v. split; [reflexivity|]. split; [exact Hv|].
  vm_compute in Et. injection Et as <-.
  vm_compute in Hv. injection Hv as <-. split; reflexivity.
Defined.

End LivePreviewMore.

(* ===================================================================== *)
(** ** Further properties of the export helpers *)
(* ===================================================================== *)

Module ExportMore.
Import JS JSFacts ExportHelpers ExportFacts SpecWords MoreWords Samples.
Import ExportSpec.

Lemma includes_absent_head (c : N) (cl s : jsstr) :
  c ∉ s -> includes (c :: cl) s = false.
Proof.
  induction s as [|d s IH]; intros Hc; [reflexivity|].
  apply not_elem_of_cons in Hc as [Hd Hs].
  simpl. destruct (N.eqb_spec c d) as [->|_]; [done|]. exact (IH Hs).
Qed.

Lemma trimStart_blank (s : jsstr) :
  Forall (fun c => isWhiteSpace c = true) s -> trimStart s = [].
Proof. induction 1 as [|c s Hc _ IH]; simpl; [done|]. by rewrite Hc. Qed.

Lemma trim_blank (s : jsstr) :
  Forall (fun c => isWhiteSpace c = true) s -> trim s = [].
Proof. intros H. unfold trim, trimEnd. by rewrite (trimStart_blank s H). Qed.

Lemma includes_close_blank (s : jsstr) :
  Forall (fun c => isWhiteSpace c = true) s -> includes PROMPT_CLOSE s = false.
Proof.
  intros H. destruct PROMPT_CLOSE_head as (tl & -> & _).
  apply includes_absent_head. intros Hin.
  rewrite Forall_forall in H. specialize (H _ Hin). vm_compute in H. done.
Qed.

(** The text of the prompt download never starts and never ends with
    white space: it is the placeholder or a trimmed capture. *)
Theorem prompt_text_trimmed (html theme : jsstr) (c : N) :
  (head (content (handleDownloadPrompt html theme)) = Some c ->
   isWhiteSpace c = false)
  /\ (last (content (handleDownloadPrompt html theme)) = Some c ->
      isWhiteSpace c = false).
Proof.
  rewrite content_prompt. unfold promptText.
  assert (forall u, head PROMPT_NOT_FOUND = Some u \/ last PROMPT_NOT_FOUND = Some u ->
                    isWhiteSpace u = false) as Hp.
  { intros u [H|H]; vm_compute in H; injection H as <-; reflexivity. }
  destruct (matchPrompt html) as [cap|]; [|split; intros H; apply Hp; auto].
  destruct (truthyStr cap); [|split; intros H; apply Hp; auto].
  destruct (trim_trimmedOf cap) as (l & t & _ & _ & _ & Hh & Hl).
  split; [apply Hh|apply Hl].
Qed.

Lemma prompt_text_trimmed_witness :
  head (content (handleDownloadPrompt
                   (PROMPT_OPEN ++ str "  x  " ++ PROMPT_CLOSE) (str "T")))
  = Some 120%N
  /\ isWhiteSpace 120%N = false.
Proof.
  split; [reflexivity|].
  exact (proj1 (prompt_text_trimmed
                  (PROMPT_OPEN ++ str "  x  " ++ PROMPT_CLOSE)
                  (str "T") 120%N) eq_refl).
Defined.

(** A marker that holds white space only gives an empty prompt file, not
    the placeholder: the capture is not empty, so it is trimmed. *)
Theorem blank_marker_gives_empty_file (pre ws post theme : jsstr) :
  includes PROMPT_OPEN pre = false ->
  ws <> [] ->
  Forall (fun c => isWhiteSpace c = true) ws ->
  content (handleDownloadPrompt
             (pre ++ PROMPT_OPEN ++ ws ++ PROMPT_CLOSE ++ post) theme) = []
  /\ PROMPT_NOT_FOUND <> [].
Proof.
  intros Hpre Hne Hws. split; [|vm_compute; discriminate].
  rewrite content_prompt, promptText_marker;
    [|exact Hpre|by apply includes_close_blank].
  destruct ws; [done|]. simpl. by apply trim_blank.
Qed.

Lemma blank_marker_gives_empty_file_witness :
  content (handleDownloadPrompt
             (str "<p>" ++ PROMPT_OPEN ++ [32; 10; 9]%N ++ PROMPT_CLOSE
              ++ str "</p>") (str "T")) = [].
Proof.
  refine (proj1 (blank_marker_gives_empty_file (str "<p>") [32; 10; 9]%N
                   (str "</p>") (str "T") _ _ _)).
  - vm_compute; reflexivity.
  - discriminate.
  - repeat constructor.
Defined.

(** Only the first marker is read: what follows the first closing tag
    after the first opening tag, a second marker included, does not change
    the text of the prompt download. *)
Theorem first_marker_wins (pre x post post' theme : jsstr) :
  includes PROMPT_OPEN pre = false ->
  includes PROMPT_CLOSE x = false ->
  content (handleDownloadPrompt
             (pre ++ PROMPT_OPEN ++ x ++ PROMPT_CLOSE ++ post) theme)
  = content (handleDownloadPrompt
               (pre ++ PROMPT_OPEN ++ x ++ PROMPT_CLOSE ++ post') theme).
Proof.
  intros Hpre Hx. rewrite !content_prompt, !promptText_marker by done.
  reflexivity.
Qed.

Lemma first_marker_wins_witness :
  content (handleDownloadPrompt
             (PROMPT_OPEN ++ str "first" ++ PROMPT_CLOSE
              ++ PROMPT_OPEN ++ str "second" ++ PROMPT_CLOSE) (str "T"))
  = str "first".
Proof.
  exact (eq_trans
           (first_marker_wins [] (str "first")
              (PROMPT_OPEN ++ str "second" ++ PROMPT_CLOSE) [] (str "T")
              eq_refl eq_refl)
           eq_refl).
Defined.

Lemma Forall_of_forallb (f : N -> bool) (l : jsstr) :
  forallb f l = true -> Forall (fun c => f c = true) l.
Proof.
  intros H. apply Forall_forall. intros c Hc.
  apply (proj1 (forallb_forall f l) H), list_elem_of_In, Hc.
Qed.

Lemma replaceNonAlnum_unit_safe (c : N) :
  safeUnit (if isAsciiAlnum c then c else 95%N) = true.
Proof.
  unfold safeUnit. destruct (isAsciiAlnum c) eqn:E; [by rewrite E|reflexivity].
Qed.

(** The name of the prompt download holds ASCII letters, ASCII digits,
    underscores and the dot only, whatever the theme name is, and is
    eleven code units longer than the theme name. *)
Theorem prompt_filename_safe (html theme : jsstr) :
  Forall (fun c => safeUnit c = true) (filename (handleDownloadPrompt html theme))
  /\ length (filename (handleDownloadPrompt html theme))
     = (length theme + 11)%nat.
Proof.
  change (filename (handleDownloadPrompt html theme))
    with (str "PROMPT_" ++ replaceNonAlnum theme ++ str ".txt").
  split.
  - apply Forall_app. split; [by apply Forall_of_forallb|].
    apply Forall_app. split; [|by apply Forall_of_forallb].
    unfold replaceNonAlnum. apply Forall_forall. intros c Hc.
    apply list_elem_of_fmap in Hc as (d & -> & _).
    apply replaceNonAlnum_unit_safe.
  - rewrite !length_app. unfold replaceNonAlnum. rewrite length_map.
    change (length (str "PROMPT_")) with 7%nat.
    change (length (str ".txt")) with 4%nat. lia.
Qed.

Lemma replaceNonAlnum_idempotent (s : jsstr) :
  replaceNonAlnum (replaceNonAlnum s) = replaceNonAlnum s.
Proof.
  unfold replaceNonAlnum. rewrite map_map. apply map_ext. intros c.
  destruct (isAsciiAlnum c) eqn:E; [by rewrite E|reflexivity].
Qed.

Lemma slugUnit_idempotent (c : N) : slugUnit (slugUnit c) = slugUnit c.
Proof. unfold slugUnit. range_cases c. Qed.

(** Normalising a name twice is the same as normalising it once, for the
    replacement of the prompt download and for the slug of the HTML
    download: a name that is already normalised is kept as it is. *)
Theorem normalising_is_idempotent (s : jsstr) :
  replaceNonAlnum (replaceNonAlnum s) = replaceNonAlnum s
  /\ toLowerCase (replaceNonAlnum (toLowerCase (replaceNonAlnum s)))
     = toLowerCase (replaceNonAlnum s)
  /\ length (toLowerCase (replaceNonAlnum s)) = length s.
Proof.
  split; [apply replaceNonAlnum_idempotent|]. split.
  - rewrite !toLowerCase_replaceNonAlnum. unfold slug. rewrite map_map.
    apply map_ext. intros c. apply slugUnit_idempotent.
  - unfold toLowerCase, replaceNonAlnum. by rewrite !length_map.
Qed.

Lemma replaceNonAlnum_sameAlnum (s t : jsstr) :
  sameAlnum s t -> replaceNonAlnum s = replaceNonAlnum t.
Proof.
  unfold sameAlnum, replaceNonAlnum.
  induction 1 as [|a b s t Hab _ IH]; simpl; [reflexivity|].
  rewrite IH. f_equal. destruct Hab as [-> |[-> ->]]; reflexivity.
Qed.

(** The names of the downloads do not tell apart code units outside
    [A-Za-z0-9]: two theme names that differ only in such code units give
    the same prompt file name, and two creation names that differ only in
    such code units give the same HTML file name for a theme. *)
Theorem names_collide (s t html html' theme : jsstr)
    (c c' : Creation.Creation) :
  (sameAlnum s t ->
   filename (handleDownloadPrompt html s)
   = filename (handleDownloadPrompt html' t))
  /\ (sameAlnum (Creation.name c) (Creation.name c') ->
      filename <$> handleDownloadHtml (Some c) html theme
      = filename <$> handleDownloadHtml (Some c') html' theme).
Proof.
  split; intros H; simpl; by rewrite (replaceNonAlnum_sameAlnum _ _ H).
Qed.

Lemma names_collide_witness :
  filename (handleDownloadPrompt [] (str "Dark Mode"))
  = filename (handleDownloadPrompt [] (str "Dark-Mode")).
Proof.
  refine (proj1 (names_collide (str "Dark Mode") (str "Dark-Mode") [] []
                   [] cafe cafe) _).
  repeat constructor; (by left) || (right; by split).
Defined.

End ExportMore.

(* ===================================================================== *)
(** ** Properties of the input area *)
(* ===================================================================== *)

Module InputAreaMore.
Import JS InputArea MoreWords.
Import ExportMore.

Lemma handleSubmit_calls (st : State) :
  Forall carries (snd (handleSubmit st)).
Proof.
  unfold handleSubmit. destruct (nothingToSend st) eqn:E; simpl; [constructor|].
  constructor; [|constructor]. unfold carries. simpl.
  unfold nothingToSend in E.
  destruct (truthyStr (trim (prompt st))); [by left|].
  destruct (attachedFile st); [by right|done].
Qed.

Lemma step_calls_carry (c : Component) (ev : Event) :
  Forall carries (calls c) -> Forall carries (calls (step c ev)).
Proof.
  intros H. unfold step. destruct (enabled c ev); [|exact H].
  destruct ev; simpl; try exact H.
  - apply Forall_app. split; [exact H|].
    unfold handleKeyDown.
    destruct (bool_decide (key = str "Enter") && negb shiftKey);
      [apply handleSubmit_calls|constructor].
  - apply Forall_app. split; [exact H|apply handleSubmit_calls].
  - destruct (SUGGESTIONS !! i); exact H.
Qed.

(** Whatever the user does, every call of [onGenerate] carries a prompt
    with a code unit that is not white space, or a file: the empty request
    is never sent, by the button or by the Enter key. *)
Theorem calls_carry_something (isGenerating0 disabled0 : bool)
    (evs : list Event) :
  Forall carries (calls (run (mount isGenerating0 disabled0) evs)).
Proof.
  assert (forall c, Forall carries (calls c) ->
                    Forall carries (calls (run c evs))) as H.
  { induction evs as [|ev evs IH]; intros c Hc; [exact Hc|].
    apply IH, step_calls_carry, Hc. }
  apply H. constructor.
Qed.

Lemma step_generating (c : Component) (ev : Event) :
  isGenerating c = true -> keepsProps ev ->
  calls (step c ev) = calls c /\ isGenerating (step c ev) = true
  /\ prompt (state (step c ev)) = prompt (state c).
Proof.
  intros Hg Hev. unfold step. destruct (enabled c ev) eqn:En; [|done].
  destruct ev; simpl in *; try done.
  - by rewrite Hg in En.
  - by rewrite Hg in En.
  - unfold submitDisabled in En. rewrite Hg, orb_true_r in En. done.
  - unfold handleFileChange. by destruct (firstFile files).
  - unfold handleDrop. rewrite Hg, orb_true_r. done.
  - unfold suggestionsShown in En. by rewrite Hg in En.
Qed.

(** While [isGenerating] holds, no event of the user calls [onGenerate]
    or changes the prompt: the textarea and the submit button are
    disabled and the chips are not rendered. *)
Theorem no_call_while_generating (c : Component) (evs : list Event) :
  isGenerating c = true ->
  Forall keepsProps evs ->
  calls (run c evs) = calls c
  /\ prompt (state (run c evs)) = prompt (state c).
Proof.
  intros Hg H. revert c Hg.
  induction H as [|ev evs Hev _ IH]; intros c Hg; [done|].
  change (run c (ev :: evs)) with (run (step c ev) evs).
  destruct (step_generating c ev Hg Hev) as (Hc & Hg' & Hp).
  destruct (IH _ Hg') as [-> ->]. done.
Qed.

Lemma no_call_while_generating_witness :
  calls (run (mount true false)
             [Change (str "a shop"); KeyDown (str "Enter") false;
              Drop (Some [sketch]); ClickSubmit; ClickSuggestion 0])
  = [].
Proof.
  refine (proj1 (no_call_while_generating (mount true false) _ eq_refl _)).
  repeat constructor.
Defined.

(** A submission that has something to send calls [onGenerate] once with
    the prompt as typed, not trimmed, and the attached file, and empties
    the form: the submit button is then disabled, and a second click or a
    second Enter sends nothing. *)
Theorem submit_clears_form (c : Component) :
  isGenerating c = false ->
  nothingToSend (state c) = false ->
  calls (step c ClickSubmit)
  = calls c ++ [(prompt (state c), attachedFile (state c))]
  /\ step c (KeyDown (str "Enter") false) = step c ClickSubmit
  /\ prompt (state (step c ClickSubmit)) = []
  /\ attachedFile (state (step c ClickSubmit)) = None
  /\ submitDisabled (step c ClickSubmit) = true
  /\ step (step c ClickSubmit) ClickSubmit = step c ClickSubmit
  /\ step (step c ClickSubmit) (KeyDown (str "Enter") false)
     = step c ClickSubmit.
Proof.
  intros Hg Hn. destruct c as [g d st cs]. simpl in Hg, Hn. subst g.
  assert (step {| isGenerating := false; disabled := d; state := st;
                  calls := cs |} ClickSubmit
          = {| isGenerating := false; disabled := d;
               state := setAttachedFile None (setPrompt [] st);
               calls := cs ++ [(prompt st, attachedFile st)] |})
    as Hs.
  { unfold step, enabled, submitDisabled, handle, withSubmit, handleSubmit.
    cbn [state isGenerating disabled calls]. rewrite Hn. reflexivity. }
  assert (step {| isGenerating := false; disabled := d; state := st;
                  calls := cs |} (KeyDown (str "Enter") false)
          = step {| isGenerating := false; disabled := d; state := st;
                    calls := cs |} ClickSubmit) as Hk.
  { rewrite Hs.
    unfold step, enabled, handle, withSubmit, handleKeyDown, handleSubmit.
    cbn [state isGenerating disabled calls negb].
    rewrite bool_decide_eq_true_2 by done. cbn [negb andb].
    rewrite Hn. reflexivity. }
  rewrite Hk, Hs. cbn [state calls prompt attachedFile setAttachedFile setPrompt].
  split; [reflexivity|]. split; [reflexivity|]. split; [reflexivity|].
  split; [reflexivity|]. split; [reflexivity|].
  split; [reflexivity|].
  unfold step, enabled, handle, withSubmit, handleKeyDown, handleSubmit.
  cbn [state isGenerating disabled calls negb].
  rewrite bool_decide_eq_true_2 by done. cbn. rewrite app_nil_r. reflexivity.
Qed.

Lemma submit_clears_form_witness :
  calls (run (mount false false)
             [Change (str "  a shop "); FileChange (Some [sketch]);
              ClickSubmit; ClickSubmit])
  = [(str "  a shop ", Some sketch)].
Proof.
  pose proof (submit_clears_form
                (run (mount false false)
                     [Change (str "  a shop "); FileChange (Some [sketch])])
                eq_refl eq_refl) as (Hc & _ & _ & _ & _ & H2 & _).
  change (calls (step (step (run (mount false false)
                     [Change (str "  a shop "); FileChange (Some [sketch])])
                   ClickSubmit) ClickSubmit)
          = [(str "  a shop ", Some sketch)]).
  rewrite H2. exact Hc.
Defined.



Lemma suggestions_carry (i : nat) (text : jsstr) :
  SUGGESTIONS !! i = Some text ->
  truthyStr (trim text) = true /\ truthyStr text = true.
Proof.
  destruct i as [|[|[|[|i]]]]; simpl; intros [= <-]; split;
    vm_compute; reflexivity.
Qed.

(** A click on a suggestion chip puts its text in the prompt: the chips
    disappear, the submit button is enabled, and a submission sends that
    text and no file. *)
Theorem suggestion_enables_submit (c : Component) (i : nat) :
  enabled c (ClickSuggestion i) = true ->
  exists text,
    SUGGESTIONS !! i = Some text
    /\ prompt (state (step c (ClickSuggestion i))) = text
    /\ suggestionsShown (step c (ClickSuggestion i)) = false
    /\ submitDisabled (step c (ClickSuggestion i)) = false
    /\ calls (step (step c (ClickSuggestion i)) ClickSubmit)
       = calls c ++ [(text, None)].
Proof.
  intros En. pose proof En as En'. unfold enabled in En'.
  apply andb_prop in En' as [Hs Hi]. apply Nat.ltb_lt in Hi.
  destruct (lookup_lt_is_Some_2 _ _ Hi) as [text Ht].
  destruct (suggestions_carry i text Ht) as [Htrim Htruthy].
  unfold suggestionsShown in Hs.
  apply andb_prop in Hs as [Hs Hf]. apply andb_prop in Hs as [Hg _].
  apply negb_true_iff in Hg.
  destruct (attachedFile (state c)) eqn:Ef; [done|].
  exists text. split; [exact Ht|].
  assert (step c (ClickSuggestion i) = withState c (setPrompt text (state c)))
    as ->.
  { unfold step. rewrite En. simpl. by rewrite Ht. }
  set (c' := withState c (setPrompt text (state c))).
  assert (submitDisabled c' = false) as Hsd.
  { unfold submitDisabled, nothingToSend, c'. simpl. by rewrite Htrim, Hg. }
  split; [reflexivity|]. split; [|split; [exact Hsd|]].
  - unfold suggestionsShown, c'. simpl. by rewrite Hg, Htruthy.
  - unfold step, enabled. rewrite Hsd. simpl.
    unfold handleSubmit, nothingToSend. simpl. rewrite Htrim. simpl.
    by rewrite Ef.
Qed.

Lemma suggestion_enables_submit_witness :
  exists text,
    SUGGESTIONS !! 2%nat = Some text
    /\ calls (run (mount false false) [ClickSuggestion 2; ClickSubmit])
       = [(text, None)].
Proof.
  destruct (suggestion_enables_submit (mount false false) 2 eq_refl)
    as (text & Ht & _ & _ & _ & Hc).
  exists text. split; [exact Ht|exact Hc].
Defined.

(** Of the files that are dropped or picked only the first is attached;
    an empty list changes nothing.  A drop always ends the drag
    highlight, and while generating or disabled it attaches nothing. *)
Theorem attachment_takes_first_file (c : Component) (f : File)
    (rest : list File) :
  step c (Drop (Some (f :: rest))) = step c (Drop (Some [f]))
  /\ step c (FileChange (Some (f :: rest))) = step c (FileChange (Some [f]))
  /\ attachedFile (state (step c (FileChange (Some (f :: rest))))) = Some f
  /\ step c (FileChange (Some [])) = c
  /\ isDragging (state (step c (Drop (Some (f :: rest))))) = false
  /\ attachedFile (state (step c (Drop (Some (f :: rest)))))
     = (if disabled c || isGenerating c then attachedFile (state c)
        else Some f).
Proof.
  unfold step. simpl. unfold handleDrop, handleFileChange. simpl.
  repeat split; try by destruct c.
  - by destruct (disabled c || isGenerating c).
  - by destruct (disabled c || isGenerating c).
Qed.

End InputAreaMore.

(* ===================================================================== *)
(** ** Further properties of the generation client *)
(* ===================================================================== *)

Module GeminiMore.
Import JS JSFacts Completion Json Gemini SpecWords MoreWords Samples.
Import GeminiSpec.

(** The request always starts with the text part, which holds the prompt
    of the user as typed between two double quotes; an inline part is
    added exactly when the file data and the MIME type are both given and
    not empty, so a file without a MIME type is left out without an
    error; no other part is sent. *)
Theorem request_parts (prompt : jsstr) (fileBase64 mimeType : option jsstr) :
  let parts := buildParts prompt fileBase64 mimeType in
  head parts
  = Some (TextPart (REQUEST_HEAD ++ [dquote] ++ prompt ++ [dquote]
                    ++ REQUEST_TAIL))
  /\ (forall d m,
         InlineData d m ∈ parts <->
         fileBase64 = Some d /\ mimeType = Some m /\ d <> [] /\ m <> [])
  /\ (length parts <= 2)%nat.
Proof.
  intros parts. unfold parts, buildParts. split; [|split].
  - unfold finalPrompt, REQUEST_HEAD, REQUEST_TAIL. reflexivity.
  - intros d m. split.
    + intros H. apply elem_of_cons in H as [H|H]; [discriminate|].
      destruct fileBase64 as [f|]; [|by apply elem_of_nil in H].
      destruct mimeType as [t|]; [|by apply elem_of_nil in H].
      destruct f, t; cbn [truthyStr andb] in H; try by apply elem_of_nil in H.
      apply list_elem_of_singleton in H. injection H as -> ->. done.
    + intros (-> & -> & Hd & Hm). destruct d, m; try done.
      cbn [truthyStr andb]. right. left.
  - destruct fileBase64 as [f|], mimeType as [t|]; cbn [length]; try lia.
    destruct (truthyStr f && truthyStr t); cbn [length]; lia.
Qed.

Lemma request_parts_witness :
  buildParts (str "a shop") (Some (str "iVBOR")) None
  = [TextPart (finalPrompt (str "a shop"))]
  /\ InlineData (str "iVBOR") (str "image/png")
     ∈ buildParts (str "a shop") (Some (str "iVBOR")) (Some (str "image/png")).
Proof.
  split; [reflexivity|].
  apply (proj2 (proj1 (proj2 (request_parts (str "a shop")
           (Some (str "iVBOR")) (Some (str "image/png"))))
           (str "iVBOR") (str "image/png"))).
  split; [reflexivity|]. split; [reflexivity|].
  split; vm_compute; discriminate.
Defined.

(** The [catch] block rethrows what it caught: a rejection of the
    external call and the syntax error of [JSON.parse] are the failure of
    [bringToLife], unchanged. *)
Theorem errors_pass_through
    (generateContent : list Part -> Outcome GenerateContentResponse)
    (prompt : jsstr) (fileBase64 mimeType : option jsstr) (e : Exn) :
  (generateContent (buildParts prompt fileBase64 mimeType) = Thrown e ->
   bringToLife generateContent prompt fileBase64 mimeType = Thrown e)
  /\ (forall r,
         generateContent (buildParts prompt fileBase64 mimeType) = Returned r ->
         JSON_parse (orElse (text r) (str "{}")) = Thrown e ->
         bringToLife generateContent prompt fileBase64 mimeType = Thrown e).
Proof.
  rewrite bringToLife_cases. split.
  - intros ->. reflexivity.
  - intros r -> ->. reflexivity.
Qed.

Lemma errors_pass_through_witness :
  bringToLife (fun _ => Thrown (Rejected (str "503"))) (str "a shop") None None
  = Thrown (Rejected (str "503"))
  /\ bringToLife (answering (Some (str "<html>"))) (str "a shop") None None
     = Thrown SyntaxError.
Proof.
  split.
  - exact (proj1 (errors_pass_through (fun _ => Thrown (Rejected (str "503")))
                    (str "a shop") None None (Rejected (str "503"))) eq_refl).
  - refine (proj2 (errors_pass_through (answering (Some (str "<html>")))
                     (str "a shop") None None SyntaxError)
                  {| text := Some (str "<html>") |} eq_refl _).
    vm_compute. reflexivity.
Defined.

Lemma lexAll_blank (s : jsstr) :
  Forall (fun c => isJsonSpace c = true) s -> lexAll LIdle s = Some [].
Proof.
  induction 1 as [|c s Hc _ IH]; [reflexivity|].
  simpl. unfold lexIdle. rewrite Hc, IH. reflexivity.
Qed.

(** A body that is not empty and holds only spaces, tabs and line breaks
    is not replaced by ["{}"]: it is parsed, and the call fails with the
    syntax error, not with "Invalid response structure". *)
Theorem blank_body_is_syntax_error
    (generateContent : list Part -> Outcome GenerateContentResponse)
    (prompt : jsstr) (fileBase64 mimeType : option jsstr)
    (r : GenerateContentResponse) (body : jsstr) :
  generateContent (buildParts prompt fileBase64 mimeType) = Returned r ->
  text r = Some body ->
  body <> [] ->
  Forall (fun c => isJsonSpace c = true) body ->
  bringToLife generateContent prompt fileBase64 mimeType = Thrown SyntaxError.
Proof.
  intros Hcall Ht Hne Hws. rewrite bringToLife_cases, Hcall, Ht.
  assert (orElse (Some body) (str "{}") = body) as -> by (by destruct body).
  unfold JSON_parse. rewrite (lexAll_blank body Hws). reflexivity.
Qed.

Lemma blank_body_is_syntax_error_witness :
  bringToLife (answering (Some [32; 10]%N)) (str "a shop") None None
  = Thrown SyntaxError.
Proof.
  refine (blank_body_is_syntax_error (answering (Some [32; 10]%N))
            (str "a shop") None None {| text := Some [32; 10]%N |}
            [32; 10]%N eq_refl eq_refl _ _).
  - discriminate.
  - repeat constructor.
Defined.

(** A body that parses to something else than an object with [designs]
    fails: [null] with the type error of the property read; a boolean, a
    number, a string or an array at the top, and an object without
    [designs], with "Invalid response structure".  In particular a bare
    array of designs is not accepted. *)
Theorem non_object_body_rejected
    (generateContent : list Part -> Outcome GenerateContentResponse)
    (prompt : jsstr) (fileBase64 mimeType : option jsstr)
    (r : GenerateContentResponse) (data : JSValue) :
  generateContent (buildParts prompt fileBase64 mimeType) = Returned r ->
  JSON_parse (orElse (text r) (str "{}")) = Returned data ->
  bringToLife generateContent prompt fileBase64 mimeType
  = match data with
    | JUndefined | JNull => Thrown TypeError
    | JBool _ | JNumber _ | JString _ | JArray _ =>
        Thrown (Error INVALID_STRUCTURE)
    | JObject ms =>
        match lookupLast (str "designs") ms with
        | Some (JArray ds) => Returned (JArray ds)
        | _ => Thrown (Error INVALID_STRUCTURE)
        end
    end.
Proof.
  intros Hcall Hp. rewrite bringToLife_cases, Hcall, Hp.
  destruct data; try reflexivity.
  unfold getProperty. destruct (lookupLast (str "designs") members) as [d|];
    [|reflexivity].
  by destruct d.
Qed.

Lemma non_object_body_rejected_witness :
  bringToLife (answering (Some (quoted "[{'themeName': 'A'}]")))
              (str "a shop") None None
  = Thrown (Error INVALID_STRUCTURE)
  /\ bringToLife (answering (Some (str "null"))) (str "a shop") None None
     = Thrown TypeError.
Proof.
  split.
  - refine (eq_trans (non_object_body_rejected
              (answering (Some (quoted "[{'themeName': 'A'}]")))
              (str "a shop") None None
              {| text := Some (quoted "[{'themeName': 'A'}]") |}
              (JArray [JObject [(str "themeName", JString (str "A"))]])
              eq_refl _) eq_refl).
    vm_compute. reflexivity.
  - refine (eq_trans (non_object_body_rejected
              (answering (Some (str "null"))) (str "a shop") None None
              {| text := Some (str "null") |} JNull eq_refl _) eq_refl).
    vm_compute. reflexivity.
Defined.

End GeminiMore.

(* ===================================================================== *)
(** ** Properties of the timers of DrawingTransformation *)
(* ===================================================================== *)

Module DrawingTransformationMore.
Import DrawingTransformation.

Lemma step_stage (st : State) (ev : Event) :
  (0 <= stage st <= 2)%Z -> (0 <= stage (step st ev) <= 2)%Z.
Proof.
  intros H. unfold step. destruct (enabled st ev); [|exact H].
  destruct ev; simpl; unfold setStage; destruct (mounted st); lia.
Qed.

Lemma step_interval (st : State) (ev : Event) :
  intervalRunning st = true -> intervalRunning (step st ev) = true.
Proof.
  intros H. unfold step. destruct (enabled st ev); [|exact H].
  destruct ev; simpl; done.
Qed.

Lemma step_unmounted (st : State) (ev : Event) :
  mounted st = false ->
  mounted (step st ev) = false /\ stage (step st ev) = stage st.
Proof.
  intros H. unfold step. destruct (enabled st ev) eqn:En; [|done].
  destruct ev; simpl in *; unfold setStage; rewrite ?H; done.
Qed.

Lemma step_idle (st : State) (ev : Event) :
  mounted st = false -> startPending st = false ->
  intervalRunning st = false -> toDrawing st = 0%nat -> toAlive st = 0%nat ->
  step st ev = st.
Proof.
  intros Hm Hs Hi Hd Ha. unfold step.
  destruct ev; simpl; rewrite ?Hm, ?Hs, ?Hi, ?Hd, ?Ha; reflexivity.
Qed.

(** The cleanup of the effect cancels the start timeout and nothing else.
    The stage stays within 0, 1 and 2.  If the component is unmounted
    before the start timeout fires, no timer is left and nothing happens
    any more.  Once the start timeout has fired, the interval runs for
    ever: no event stops it, the unmount included; after the unmount the
    timers go on firing, and the stage that was rendered last is kept. *)
Theorem cleanup_cancels_start_only (st : State) (evs : list Event) :
  (0 <= stage (run mount evs) <= 2)%Z
  /\ run (step mount Unmount) evs = step mount Unmount
  /\ intervalRunning (step mount StartFires) = true
  /\ (intervalRunning st = true ->
      intervalRunning (run st evs) = true
      /\ enabled (run st evs) IntervalFires = true)
  /\ (mounted st = false ->
      mounted (run st evs) = false /\ stage (run st evs) = stage st).
Proof.
  split; [|split; [|split; [reflexivity|split]]].
  - assert (forall s, (0 <= stage s <= 2)%Z ->
                      (0 <= stage (run s evs) <= 2)%Z) as H.
    { induction evs as [|ev evs IH]; intros s Hs; [exact Hs|].
      apply IH, step_stage, Hs. }
    apply H. simpl. lia.
  - induction evs as [|ev evs IH]; [reflexivity|].
    change (run (step mount Unmount) (ev :: evs))
      with (run (step (step mount Unmount) ev) evs).
    rewrite (step_idle (step mount Unmount) ev) by reflexivity. exact IH.
  - intros Hi.
    assert (intervalRunning (run st evs) = true) as H.
    { revert st Hi. induction evs as [|ev evs IH]; intros s Hs; [exact Hs|].
      apply IH, step_interval, Hs. }
    split; exact H.
  - revert st. induction evs as [|ev evs IH]; intros s Hs; [done|].
    change (run s (ev :: evs)) with (run (step s ev) evs).
    destruct (step_unmounted s ev Hs) as [Hm Hst].
    destruct (IH _ Hm) as [-> ->]. done.
Qed.

Lemma cleanup_cancels_start_only_witness :
  let st := run mount [StartFires; DrawingFires; Unmount] in
  intervalRunning (run st [AliveFires; IntervalFires; DrawingFires]) = true
  /\ stage (run st [AliveFires; IntervalFires; DrawingFires]) = 1%Z.
Proof.
  cbv zeta.
  destruct (cleanup_cancels_start_only
              (run mount [StartFires; DrawingFires; Unmount])
              [AliveFires; IntervalFires; DrawingFires])
    as (_ & _ & _ & Hi & Hm).
  split; [exact (proj1 (Hi eq_refl))|exact (proj2 (Hm eq_refl))].
Defined.

End DrawingTransformationMore.
